(** * Clipped image statistics: [computeMean.c] of stsci.stimage (imagestats)

    The C routine [computeMean_] makes one pass over a buffer of doubles and
    returns, through five output pointers, the number of pixels inside the
    inclusive clip range, their mean, their sample standard deviation and
    their minimum and maximum.  [computeMean], the entry point of the
    extension module, parses its arguments, converts the array, zeroes the
    five output variables, calls the routine and builds the result tuple;
    the model takes it up at the zeroing (lines 81-92).

    The embedding follows the C text statement by statement.  The arithmetic
    of [double] is an interface ([Double]) with two implementations:

    - [float_Double]: IEEE 754 binary64, the kernel's primitive floats.  It
      runs the model on concrete buffers the way C does where [double] is
      binary64, rounded to nearest and evaluated without excess precision.
    - [xreal_Double]: exact arithmetic on the reals extended with the two
      infinities and NaN, following the IEEE rules for the special values
      and without rounding or signed zeros.  The properties whose statement
      says "in exact arithmetic" are stated over it.

    What concerns only the comparisons (the clip test, the minimum and the
    maximum) is proved once, for any implementation whose comparisons are
    those of an ordered arithmetic ([DoubleOrder]), which both are.  What
    concerns the sums holds in exact arithmetic only.

    The [int] counter is a [Z] whose 32-bit wrap-around is written out. *)

From Stdlib Require Import Floats.
From Stdlib Require Uint63.
From Stdlib Require Import ZArith List Bool Lia Permutation.
From Stdlib Require Import Reals Lra Psatz.
Import ListNotations.

Set Implicit Arguments.

(** ** C [int]: 32 bits, two's complement *)

(** Overflow of a signed [int] is undefined in C; the model gives it the
    two's complement wrap-around of the usual targets, which is also how a
    wider integer ([npy_intp]) is stored in an [int]. *)
Module Int.

Definition INT_MAX : Z := 2147483647.
Definition INT_MIN : Z := -2147483648.
Definition modulus : Z := 4294967296.

(** The value of a mathematical integer once stored in an [int]. *)
Definition wrap (z : Z) : Z := ((z - INT_MIN) mod modulus + INT_MIN)%Z.

Definition is_int (z : Z) : Prop := (INT_MIN <= z <= INT_MAX)%Z.

Definition add (a b : Z) : Z := wrap (a + b).
Definition sub (a b : Z) : Z := wrap (a - b).

End Int.

(** ** The arithmetic of [double] as an interface *)

Class Double (D : Type) : Type := {
  d_of_int : Z -> D;          (* conversion of an int, [(double) n] *)
  d_add : D -> D -> D;
  d_sub : D -> D -> D;
  d_mul : D -> D -> D;
  d_div : D -> D -> D;
  d_sqrt : D -> D;
  d_lt : D -> D -> bool;      (* [x < y]  *)
  d_le : D -> D -> bool       (* [x <= y] *)
}.

Declare Scope double_scope.
Delimit Scope double_scope with D.
Infix "+" := d_add : double_scope.
Infix "-" := d_sub : double_scope.
Infix "*" := d_mul : double_scope.
Infix "/" := d_div : double_scope.
Notation "x <? y" := (d_lt x y) : double_scope.
Notation "x <=? y" := (d_le x y) : double_scope.
Notation "x >? y" := (d_lt y x) (only parsing) : double_scope.
Notation "x >=? y" := (d_le y x) (only parsing) : double_scope.

(** [x] is a number: it compares with itself, which NaN does not. *)
Definition d_number {D : Type} `{Double D} (x : D) : Prop :=
  (x <=? x)%D = true.

(** [x] and [y] are the same number: each is below the other.  In
    binary64 this is [x == y], which holds of [+0] and [-0]. *)
Definition same_number {D : Type} `{Double D} (x y : D) : Prop :=
  (x <=? y)%D = true /\ (y <=? x)%D = true.

(** What the properties of the minimum and the maximum use of the two
    comparisons: on numbers they are a total preorder and its strict part,
    and nothing compares with NaN.  Both implementations below satisfy
    them. *)
Class DoubleOrder (D : Type) `{Double D} : Prop := {
  d_le_trans :
    forall x y z : D,
      (x <=? y)%D = true -> (y <=? z)%D = true -> (x <=? z)%D = true;
  d_lt_le :
    forall x y : D, (x <? y)%D = true -> (x <=? y)%D = true;
  d_lt_not_ge :
    forall x y : D, (x <? y)%D = true -> (y <=? x)%D = false;
  d_le_total :
    forall x y : D,
      d_number x -> d_number y -> (x <? y)%D = false -> (y <=? x)%D = true;
  d_le_number_l : forall x y : D, (x <=? y)%D = true -> d_number x;
  d_le_number_r : forall x y : D, (x <=? y)%D = true -> d_number y
}.

Arguments DoubleOrder D {_}.

(** ** The memory the routine works on and its local variables *)

(** What the six pointer arguments of [computeMean_] designate: the pixel
    buffer [image] and the five output locations, six distinct objects as
    in the call made by [computeMean]. *)
Record memory (D : Type) : Type := Memory {
  image : list D;
  numGoodPixels : Z;
  mean : D;
  stddev : D;
  minValue : D;
  maxValue : D
}.

(** The local variables of [computeMean_] that live across the loop. *)
Record locals (D : Type) : Type := Locals {
  tmpMinValue : D;
  tmpMaxValue : D;
  sum : D;
  sumsq : D
}.

Section ComputeMean.

Context {D : Type} `{Double D}.
Local Open Scope double_scope.

(** The test of line 36,
    [(image[i] >= clipmin) && (image[i] <= clipmax)]. *)
Definition in_clip (clipmin clipmax x : D) : bool :=
  (x >=? clipmin) && (x <=? clipmax).

(** The cells [image[0]], ..., [image[nelements - 1]] that the loop
    [for (i = 0; i < nelements; i++)] reads, in that order.  A negative
    [nelements] reads nothing.  C requires the buffer to hold at least
    [nelements] cells; the model reads no further than the buffer. *)
Definition pixels (image : list D) (nelements : Z) : list D :=
  firstn (Z.to_nat nelements) image.

(** One iteration of the loop (lines 36-55) on the cell [x = image[i]].
    The first component of the state is the content of [*numGoodPixels]. *)
Definition loop_body (clipmin clipmax : D) (s : Z * locals D) (x : D)
  : Z * locals D :=
  let '(n, l) := s in
  if in_clip clipmin clipmax x then
    let tmpMin := if x <? tmpMinValue l then x else tmpMinValue l in
    let tmpMax := if x >? tmpMaxValue l then x else tmpMaxValue l in
    (Int.add n 1,
     {| tmpMinValue := tmpMin;
        tmpMaxValue := tmpMax;
        sum := sum l + x;
        sumsq := sumsq l + (x * x) |})
  else s.

(** What one accepted pixel does to each running value: lines 38-40,
    43-45, 51 and 54. *)
Definition runningMin (t x : D) : D := if x <? t then x else t.
Definition runningMax (t x : D) : D := if x >? t then x else t.
Definition runningSum (s x : D) : D := s + x.
Definition runningSumsq (q x : D) : D := q + (x * x).

(** The state on entry to the loop (lines 26-33): [*numGoodPixels] is
    whatever the caller left there. *)
Definition loop_init (m : memory D) (clipmin clipmax : D) : Z * locals D :=
  (numGoodPixels m,
   {| tmpMinValue := clipmax;
      tmpMaxValue := clipmin;
      sum := d_of_int 0;
      sumsq := d_of_int 0 |}).

(** The state on exit from the loop. *)
Definition loop (m : memory D) (nelements : Z) (clipmin clipmax : D)
  : Z * locals D :=
  fold_left (loop_body clipmin clipmax) (pixels (image m) nelements)
            (loop_init m clipmin clipmax).

(** The argument of [sqrt] on line 61, from the values on exit from the
    loop: the numerator [sumsq - mean * sum] over the divisor
    [*numGoodPixels - 1]. *)
Definition stddev_numerator (mean : D) (l : locals D) : D :=
  sumsq l - (mean * sum l).

Definition stddev_divisor (n : Z) : D := d_of_int (Int.sub n 1).

(** [computeMean_]: the returned status and the memory on return. *)
Definition computeMean_ (m : memory D) (nelements : Z) (clipmin clipmax : D)
  : Z * memory D :=
  let '(n, l) := loop m nelements clipmin clipmax in
  let mean' := sum l / d_of_int n in
  let stddev' := d_sqrt (stddev_numerator mean' l / stddev_divisor n) in
  (1%Z,
   {| image := image m;
      numGoodPixels := n;
      mean := mean';
      stddev := stddev';
      minValue := tmpMinValue l;
      maxValue := tmpMaxValue l |}).

(** The five results, read from the output locations. *)
Definition results (m : memory D) : Z * D * D * D * D :=
  (numGoodPixels m, mean m, stddev m, minValue m, maxValue m).

(** [PyArray_Size] of the contiguous buffer, stored in the [int]
    parameter [nelements]. *)
Definition PyArray_Size (image : list D) : Z := Z.of_nat (length image).

(** The memory [computeMean] hands to the routine: the buffer, and the
    five output variables set to zero (lines 81-85). *)
Definition zeroed (buffer : list D) : memory D :=
  {| image := buffer;
     numGoodPixels := 0;
     mean := d_of_int 0;
     stddev := d_of_int 0;
     minValue := d_of_int 0;
     maxValue := d_of_int 0 |}.

(** [computeMean] (lines 81-92), from the point where the arguments have
    been parsed and the array converted to a contiguous buffer of
    doubles (lines 74-79, which return [NULL] when either step fails, are
    outside the model): the five output variables are zeroed, the routine
    is called, its status is dropped and the tuple
    [(numGoodPixels, mean, stddev, minValue, maxValue)] is built.

    The arguments [clipmin] and [clipmax] are the values that the two
    [double] variables of line 72 hold when line 87 is reached, not the
    bounds given by the caller of the entry point: line 74 parses these
    with the format ["Off"], which stores a C [float] where the variable
    is, so what the variables then hold is not the bound that was given.
    What is said of the statistics of given bounds is therefore stated on
    [computeMean_]. *)
Definition computeMean (buffer : list D) (clipmin clipmax : D)
  : Z * D * D * D * D :=
  let m := zeroed buffer in
  let '(_, m') :=
    computeMean_ m (Int.wrap (PyArray_Size buffer)) clipmin clipmax in
  results m'.

(** The components of the tuple [computeMean] returns. *)
Definition tuple_numGoodPixels (t : Z * D * D * D * D) : Z :=
  let '(n, _, _, _, _) := t in n.
Definition tuple_mean (t : Z * D * D * D * D) : D :=
  let '(_, a, _, _, _) := t in a.
Definition tuple_stddev (t : Z * D * D * D * D) : D :=
  let '(_, _, s, _, _) := t in s.
Definition tuple_minValue (t : Z * D * D * D * D) : D :=
  let '(_, _, _, lo, _) := t in lo.
Definition tuple_maxValue (t : Z * D * D * D * D) : D :=
  let '(_, _, _, _, hi) := t in hi.

(** The pixels of the pass that the clip test lets through. *)
Definition accepted (m : memory D) (nelements : Z) (clipmin clipmax : D)
  : list D :=
  filter (in_clip clipmin clipmax) (pixels (image m) nelements).

End ComputeMean.

(** ** IEEE 754 binary64 *)

Definition float_of_int (n : Z) : float :=
  if (n <? 0)%Z
  then PrimFloat.opp (PrimFloat.of_uint63 (Uint63.of_Z (- n)))
  else PrimFloat.of_uint63 (Uint63.of_Z n).

#[export] Instance float_Double : Double float := {
  d_of_int := float_of_int;
  d_add := PrimFloat.add;
  d_sub := PrimFloat.sub;
  d_mul := PrimFloat.mul;
  d_div := PrimFloat.div;
  d_sqrt := PrimFloat.sqrt;
  d_lt := PrimFloat.ltb;
  d_le := PrimFloat.leb
}.

(** ** Exact arithmetic: the reals with the IEEE special values *)

Inductive xreal : Type :=
  | XFin (r : R)      (* a real number *)
  | XPInf             (* +infinity *)
  | XNInf             (* -infinity *)
  | XNaN.             (* not a number *)

Definition Rltb (a b : R) : bool := if Rlt_dec a b then true else false.
Definition Rleb (a b : R) : bool := if Rle_dec a b then true else false.

Definition xneg (x : xreal) : xreal :=
  match x with
  | XFin a => XFin (- a)
  | XPInf => XNInf
  | XNInf => XPInf
  | XNaN => XNaN
  end.

Definition xadd (x y : xreal) : xreal :=
  match x, y with
  | XNaN, _ | _, XNaN => XNaN
  | XFin a, XFin b => XFin (a + b)
  | XPInf, XNInf | XNInf, XPInf => XNaN
  | XPInf, _ | _, XPInf => XPInf
  | XNInf, _ | _, XNInf => XNInf
  end.

Definition xsub (x y : xreal) : xreal := xadd x (xneg y).

(** An infinity of sign [positive] times the real [r]. *)
Definition xinf_times (positive : bool) (r : R) : xreal :=
  if Rlt_dec 0 r then (if positive then XPInf else XNInf)
  else if Rlt_dec r 0 then (if positive then XNInf else XPInf)
  else XNaN.

Definition xmul (x y : xreal) : xreal :=
  match x, y with
  | XNaN, _ | _, XNaN => XNaN
  | XFin a, XFin b => XFin (a * b)
  | XPInf, XFin r | XFin r, XPInf => xinf_times true r
  | XNInf, XFin r | XFin r, XNInf => xinf_times false r
  | XPInf, XPInf | XNInf, XNInf => XPInf
  | XPInf, XNInf | XNInf, XPInf => XNInf
  end.

(** Division.  There is no negative zero: a zero divisor is [+0], which is
    what the conversion of the int [0] gives, the only way a zero divisor
    arises in [computeMean_]. *)
Definition xdiv (x y : xreal) : xreal :=
  match x, y with
  | XNaN, _ | _, XNaN => XNaN
  | XFin a, XFin b =>
      if Req_dec_T b 0 then
        (if Rlt_dec 0 a then XPInf else if Rlt_dec a 0 then XNInf else XNaN)
      else XFin (a / b)
  | XFin _, XPInf | XFin _, XNInf => XFin 0
  | XPInf, XFin b => if Rlt_dec b 0 then XNInf else XPInf
  | XNInf, XFin b => if Rlt_dec b 0 then XPInf else XNInf
  | XPInf, XPInf | XPInf, XNInf | XNInf, XPInf | XNInf, XNInf => XNaN
  end.

Definition xsqrt (x : xreal) : xreal :=
  match x with
  | XFin a => if Rlt_dec a 0 then XNaN else XFin (R_sqrt.sqrt a)
  | XPInf => XPInf
  | XNInf | XNaN => XNaN
  end.

Definition xlt (x y : xreal) : bool :=
  match x, y with
  | XNaN, _ | _, XNaN => false
  | XFin a, XFin b => Rltb a b
  | _, XNInf | XPInf, _ => false
  | XNInf, _ | _, XPInf => true
  end.

Definition xle (x y : xreal) : bool :=
  match x, y with
  | XNaN, _ | _, XNaN => false
  | XFin a, XFin b => Rleb a b
  | XNInf, _ | _, XPInf => true
  | _, XNInf | XPInf, _ => false
  end.

#[export] Instance xreal_Double : Double xreal := {
  d_of_int := fun n => XFin (IZR n);
  d_add := xadd;
  d_sub := xsub;
  d_mul := xmul;
  d_div := xdiv;
  d_sqrt := xsqrt;
  d_lt := xlt;
  d_le := xle
}.

Definition is_finite (x : xreal) : Prop :=
  match x with XFin _ => True | _ => False end.

(** The real number a finite value stands for. *)
Definition to_R (x : xreal) : R :=
  match x with XFin a => a | _ => 0%R end.

(** ** The textbook statistics, as the specification words them *)

Module Reference.

Local Open Scope R_scope.

Definition total (xs : list R) : R := fold_right Rplus 0 xs.

(** Number of samples, as a real. *)
Definition size (xs : list R) : R := INR (length xs).

(** The sample mean, [sum / n]. *)
Definition sample_mean (xs : list R) : R := total xs / size xs.

(** The unbiased sample variance, the sum of [(x - mean)^2] over
    [n - 1]. *)
Definition sample_variance (xs : list R) : R :=
  total (map (fun x => (x - sample_mean xs) * (x - sample_mean xs)) xs)
  / (size xs - 1).

(** Number of samples of the sequence inside the inclusive range. *)
Definition count_in_range (lo hi : R) (xs : list R) : nat :=
  length (filter (fun x => Rleb lo x && Rleb x hi) xs).

End Reference.

(** ** Concrete inputs *)

Module Inputs.

Local Open Scope float_scope.

(** One pixel inside the range [[0, 2]]; the location [*numGoodPixels]
    holds 5 on entry in the first memory and 0 in the second. *)
Definition entry_five : memory float :=
  {| image := [1]; numGoodPixels := 5;
     mean := 0; stddev := 0; minValue := 0; maxValue := 0 |}.

Definition entry_zero : memory float := zeroed [1].

(** Three pixels whose sum depends on the order of the additions in
    binary64, and the same pixels in another order. *)
Definition cancelling : list float := [1e20; 1; -1e20].
Definition cancelling_permuted : list float := [1e20; -1e20; 1].

End Inputs.

Module ExactInputs.

Definition one_to_five : memory xreal :=
  zeroed [XFin 1; XFin 2; XFin 3; XFin 4; XFin 5].

Definition five_fifteen_twentyfive : memory xreal :=
  zeroed [XFin 5; XFin 15; XFin 25].

End ExactInputs.

(** ** Classes of binary64 values *)

(** Properties of a binary64 value read on its specification, for the
    special values that a sum of pixels can reach. *)
Module Binary64Values.

(** [s] is an infinity or NaN. *)
Definition infinite_or_nan (s : spec_float) : Prop :=
  match s with
  | S754_infinity _ | S754_nan => True
  | _ => False
  end.

(** [s] is [+infinity] or NaN. *)
Definition plus_infinity_or_nan (s : spec_float) : Prop :=
  match s with
  | S754_infinity false | S754_nan => True
  | _ => False
  end.

(** [s] is NaN or carries the sign [sign]. *)
Definition signed_or_nan (sign : bool) (s : spec_float) : Prop :=
  match s with
  | S754_nan => True
  | S754_zero b | S754_infinity b | S754_finite b _ _ => b = sign
  end.

End Binary64Values.

(** * Properties *)

(** ** Facts on the [int] counter *)

Module IntFacts.

Import Int.
Local Open Scope Z_scope.

Lemma wrap_id (z : Z) : is_int z -> wrap z = z.
Proof.
  unfold is_int, wrap, INT_MIN, INT_MAX, modulus. intros Hz.
  rewrite Z.mod_small; lia.
Qed.

Lemma wrap_is_int (z : Z) : is_int (wrap z).
Proof.
  unfold is_int, wrap, INT_MIN, INT_MAX, modulus.
  pose proof (Z.mod_pos_bound (z - -2147483648) 4294967296 eq_refl). lia.
Qed.

Lemma wrap_add_l (a b : Z) : wrap (wrap a + b) = wrap (a + b).
Proof.
  unfold wrap, INT_MIN, modulus. f_equal.
  replace ((a - -2147483648) mod 4294967296 + -2147483648 + b - -2147483648)
    with ((a - -2147483648) mod 4294967296 + b) by lia.
  replace (a + b - -2147483648) with ((a - -2147483648) + b) by lia.
  now rewrite Zplus_mod_idemp_l.
Qed.

(** [k] executions of [*numGoodPixels = *numGoodPixels + 1]. *)
Lemma increments (k : nat) (n : Z) :
  is_int n ->
  Nat.iter k (fun z => add z 1) n = wrap (n + Z.of_nat k).
Proof.
  intros Hn. induction k as [|k IH].
  - simpl. rewrite Z.add_0_r. symmetry. now apply wrap_id.
  - rewrite Nat.iter_succ, IH. unfold add. rewrite wrap_add_l.
    f_equal. lia.
Qed.

Lemma zero_is_int : is_int 0.
Proof. unfold is_int, INT_MIN, INT_MAX. lia. Qed.

End IntFacts.

(** ** The loop, whatever the arithmetic *)

Section LoopFacts.

Context {D : Type} `{Double D}.
Variables clipmin clipmax : D.

Local Notation "'step'" := (loop_body clipmin clipmax).
Local Notation "'keep'" := (in_clip clipmin clipmax).

Lemma loop_body_rejected (s : Z * locals D) (x : D) :
  keep x = false -> step s x = s.
Proof. intros Hx. destruct s as [n l]. unfold loop_body. now rewrite Hx. Qed.

(** Only the accepted cells act on the state. *)
Lemma fold_loop_body_filter (xs : list D) (s : Z * locals D) :
  fold_left step xs s = fold_left step (filter keep xs) s.
Proof.
  revert s. induction xs as [|x xs IH]; intros s; [reflexivity|].
  cbn [fold_left filter]. destruct (keep x) eqn:Hx.
  - cbn [fold_left]. apply IH.
  - rewrite (loop_body_rejected s x Hx). apply IH.
Qed.

(** The counter goes up by one per accepted cell. *)
Lemma fold_loop_body_count (xs : list D) (n : Z) (l : locals D) :
  fst (fold_left step xs (n, l))
  = Nat.iter (length (filter keep xs)) (fun z => Int.add z 1) n.
Proof.
  revert n l. induction xs as [|x xs IH]; intros n l; [reflexivity|].
  cbn [fold_left filter]. unfold loop_body at 2.
  destruct (keep x) eqn:Hx.
  - rewrite IH. cbn [length]. now rewrite Nat.iter_succ_r.
  - apply IH.
Qed.

(** The loop is five independent reductions over the accepted cells. *)
Lemma fold_loop_body_components (xs : list D) (n : Z) (l : locals D) :
  fold_left step xs (n, l)
  = (Nat.iter (length (filter keep xs)) (fun z => Int.add z 1) n,
     {| tmpMinValue := fold_left runningMin (filter keep xs) (tmpMinValue l);
        tmpMaxValue := fold_left runningMax (filter keep xs) (tmpMaxValue l);
        sum := fold_left runningSum (filter keep xs) (sum l);
        sumsq := fold_left runningSumsq (filter keep xs) (sumsq l) |}).
Proof.
  revert n l. induction xs as [|x xs IH]; intros n l.
  - now destruct l.
  - cbn [fold_left filter]. unfold loop_body at 2.
    destruct (keep x) eqn:Hx.
    + rewrite IH. cbn [length fold_left tmpMinValue tmpMaxValue sum sumsq].
      now rewrite Nat.iter_succ_r.
    + apply IH.
Qed.

Lemma fold_loop_body_nil (xs : list D) (s : Z * locals D) :
  filter keep xs = [] -> fold_left step xs s = s.
Proof. intros Hxs. now rewrite fold_loop_body_filter, Hxs. Qed.

Lemma length_pixels_le (img : list D) (nelements : Z) :
  Int.is_int nelements ->
  (Z.of_nat (length (filter keep (pixels img nelements))) <= Int.INT_MAX)%Z.
Proof.
  unfold Int.is_int, Int.INT_MAX. intros [_ Hn].
  pose proof (filter_length_le keep (pixels img nelements)) as Hf.
  unfold pixels in *. rewrite length_firstn in Hf. lia.
Qed.

End LoopFacts.

(** ** The routine, whatever the arithmetic *)

Section RoutineFacts.

Context {D : Type} `{Double D}.
Variables (m : memory D) (nelements : Z) (clipmin clipmax : D).

Local Notation "'out'" := (snd (computeMean_ m nelements clipmin clipmax)).
Local Notation "'exit'" := (loop m nelements clipmin clipmax).

Lemma computeMean__status :
  fst (computeMean_ m nelements clipmin clipmax) = 1%Z.
Proof. unfold computeMean_. now destruct exit. Qed.

Lemma computeMean__image : image out = image m.
Proof. unfold computeMean_. now destruct exit. Qed.

Lemma computeMean__numGoodPixels : numGoodPixels out = fst exit.
Proof. unfold computeMean_. now destruct exit. Qed.

Lemma computeMean__minValue : minValue out = tmpMinValue (snd exit).
Proof. unfold computeMean_. now destruct exit. Qed.

Lemma computeMean__maxValue : maxValue out = tmpMaxValue (snd exit).
Proof. unfold computeMean_. now destruct exit. Qed.

Lemma computeMean__mean :
  mean out = (sum (snd exit) / d_of_int (fst exit))%D.
Proof. unfold computeMean_. now destruct exit. Qed.

Lemma computeMean__stddev :
  stddev out
  = d_sqrt (stddev_numerator (mean out) (snd exit)
            / stddev_divisor (fst exit))%D.
Proof. unfold computeMean_. now destruct exit. Qed.

(** The loop leaves in [*numGoodPixels] the entry value incremented once
    per accepted pixel. *)
Lemma loop_count :
  fst exit
  = Nat.iter (length (accepted m nelements clipmin clipmax))
             (fun z => Int.add z 1) (numGoodPixels m).
Proof. unfold loop, loop_init, accepted. apply fold_loop_body_count. Qed.

Lemma loop_count_wrap :
  Int.is_int (numGoodPixels m) ->
  fst exit
  = Int.wrap (numGoodPixels m
              + Z.of_nat (length (accepted m nelements clipmin clipmax))).
Proof. intros Hn. rewrite loop_count. now apply IntFacts.increments. Qed.

(** Called the way [computeMean] calls it, the routine counts the
    accepted pixels. *)
Lemma loop_count_from_zero :
  numGoodPixels m = 0%Z -> Int.is_int nelements ->
  fst exit = Z.of_nat (length (accepted m nelements clipmin clipmax)).
Proof.
  intros H0 Hn. rewrite loop_count_wrap, H0
    by (rewrite H0; apply IntFacts.zero_is_int).
  apply IntFacts.wrap_id. split.
  - unfold Int.INT_MIN. lia.
  - now apply length_pixels_le.
Qed.

(** The five results are those of the loop state on exit. *)
Lemma computeMean__results :
  results out
  = (fst exit,
     (sum (snd exit) / d_of_int (fst exit))%D,
     d_sqrt (stddev_numerator (sum (snd exit) / d_of_int (fst exit))%D
                              (snd exit)
             / stddev_divisor (fst exit))%D,
     tmpMinValue (snd exit),
     tmpMaxValue (snd exit)).
Proof. unfold computeMean_, results. now destruct exit. Qed.

Lemma loop_accepted_only :
  exit = fold_left (loop_body clipmin clipmax)
                   (accepted m nelements clipmin clipmax)
                   (loop_init m clipmin clipmax).
Proof. unfold loop, accepted. apply fold_loop_body_filter. Qed.

Lemma loop_nothing_accepted :
  accepted m nelements clipmin clipmax = [] ->
  exit = loop_init m clipmin clipmax.
Proof. intros Ha. unfold loop. now apply fold_loop_body_nil. Qed.

Lemma nothing_accepted_outputs :
  accepted m nelements clipmin clipmax = [] ->
  minValue out = clipmax /\ maxValue out = clipmin
  /\ numGoodPixels out = numGoodPixels m.
Proof.
  intros Ha.
  rewrite computeMean__minValue, computeMean__maxValue,
    computeMean__numGoodPixels, (loop_nothing_accepted Ha).
  now cbn.
Qed.

End RoutineFacts.

(** The tuple of [computeMean] is the memory the routine leaves. *)
Lemma computeMean_unfold {D : Type} `{Double D}
      (buffer : list D) (clipmin clipmax : D) :
  let m' := snd (computeMean_ (zeroed buffer)
                              (Int.wrap (PyArray_Size buffer))
                              clipmin clipmax) in
  computeMean buffer clipmin clipmax = results m'.
Proof.
  unfold computeMean.
  now destruct (computeMean_ (zeroed buffer) (Int.wrap (PyArray_Size buffer))
                             clipmin clipmax).
Qed.

(** The call made by [computeMean] has a zero count on entry and a length
    that is an [int]. *)
Lemma computeMean_call {D : Type} `{Double D} (buffer : list D) :
  numGoodPixels (zeroed buffer) = 0%Z
  /\ Int.is_int (Int.wrap (PyArray_Size buffer)).
Proof. split; [reflexivity | apply IntFacts.wrap_is_int]. Qed.

(** A buffer whose size fits an [int] is read whole. *)
Lemma pixels_whole {D : Type} (buffer : list D) :
  (Z.of_nat (length buffer) <= Int.INT_MAX)%Z ->
  pixels buffer (Int.wrap (PyArray_Size buffer)) = buffer.
Proof.
  intros Hb. unfold pixels, PyArray_Size. rewrite IntFacts.wrap_id.
  - rewrite Nat2Z.id. apply firstn_all.
  - split; [unfold Int.INT_MIN; lia | exact Hb].
Qed.

(** The pass over the accepted pixels alone: rejected pixels removed from
    the buffer, its length adjusted. *)
Lemma loop_of_accepted {D : Type} `{Double D}
      (m : memory D) (nelements : Z) (clipmin clipmax : D) :
  loop {| image := accepted m nelements clipmin clipmax;
          numGoodPixels := numGoodPixels m;
          mean := mean m;
          stddev := stddev m;
          minValue := minValue m;
          maxValue := maxValue m |}
       (Z.of_nat (length (accepted m nelements clipmin clipmax)))
       clipmin clipmax
  = loop m nelements clipmin clipmax.
Proof.
  rewrite (loop_accepted_only m).
  unfold loop, loop_init, pixels. cbn [image numGoodPixels].
  now rewrite Nat2Z.id, firstn_all.
Qed.

(** A test that fails everywhere selects nothing. *)
Lemma filter_none {A : Type} (f : A -> bool) (xs : list A) :
  (forall x, In x xs -> f x = false) -> filter f xs = [].
Proof.
  induction xs as [|x xs IH]; intros Hf; [reflexivity|].
  cbn [filter]. rewrite (Hf x) by now left.
  apply IH. intros y Hy. apply Hf. now right.
Qed.

(** ** Minimum and maximum, whatever the ordered arithmetic *)

Section OrderFacts.

Context {D : Type} {HD : Double D} {HO : DoubleOrder D}.
Local Open Scope double_scope.

Lemma in_clip_bounds (clipmin clipmax x : D) :
  in_clip clipmin clipmax x = true ->
  (clipmin <=? x) = true /\ (x <=? clipmax) = true.
Proof. unfold in_clip. now rewrite andb_true_iff. Qed.

Lemma in_clip_number (clipmin clipmax x : D) :
  in_clip clipmin clipmax x = true -> d_number x.
Proof. intros Hx. apply in_clip_bounds in Hx. eapply d_le_number_l, Hx. Qed.

(** What is not a number fails the test. *)
Lemma not_number_rejected (clipmin clipmax x : D) :
  ~ d_number x -> in_clip clipmin clipmax x = false.
Proof.
  intros Hx. destruct (in_clip clipmin clipmax x) eqn:E; [|reflexivity].
  exfalso. apply Hx. eapply in_clip_number, E.
Qed.

(** Both bounds of a range that is not empty pass the test. *)
Lemma bounds_in_clip (clipmin clipmax : D) :
  (clipmin <=? clipmax) = true ->
  in_clip clipmin clipmax clipmin = true
  /\ in_clip clipmin clipmax clipmax = true.
Proof.
  intros Hle. unfold in_clip. rewrite Hle.
  pose proof (d_le_number_l _ _ Hle) as Hlo.
  pose proof (d_le_number_r _ _ Hle) as Hhi.
  unfold d_number in Hlo, Hhi. now rewrite Hlo, Hhi.
Qed.

(** Reversed bounds leave no room. *)
Lemma reversed_bounds_reject (clipmin clipmax x : D) :
  (clipmax <? clipmin) = true -> in_clip clipmin clipmax x = false.
Proof.
  intros Hrev. destruct (in_clip clipmin clipmax x) eqn:Hx; [|reflexivity].
  apply in_clip_bounds in Hx. destruct Hx as [Hlo Hhi].
  pose proof (d_le_trans _ _ _ Hlo Hhi) as Hle.
  now rewrite (d_lt_not_ge _ _ Hrev) in Hle.
Qed.

Lemma same_number_refl (x : D) : d_number x -> same_number x x.
Proof. intros Hx. now split. Qed.

Lemma runningMin_cases (t x : D) :
  d_number t -> d_number x ->
  let t' := runningMin t x in
  d_number t' /\ (t' <=? t) = true /\ (t' <=? x) = true
  /\ (t' = t \/ t' = x).
Proof.
  intros Ht Hx. unfold runningMin. destruct (x <? t) eqn:Hlt.
  - split; [exact Hx|]. split; [now apply d_lt_le|].
    split; [exact Hx | now right].
  - split; [exact Ht|]. split; [exact Ht|].
    split; [now apply d_le_total | now left].
Qed.

Lemma runningMax_cases (t x : D) :
  d_number t -> d_number x ->
  let t' := runningMax t x in
  d_number t' /\ (t <=? t') = true /\ (x <=? t') = true
  /\ (t' = t \/ t' = x).
Proof.
  intros Ht Hx. unfold runningMax. destruct (t <? x) eqn:Hlt.
  - split; [exact Hx|]. split; [now apply d_lt_le|].
    split; [exact Hx | now right].
  - split; [exact Ht|]. split; [exact Ht|].
    split; [now apply d_le_total | now left].
Qed.

(** The running minimum ends below its seed and below every pixel it
    saw, and it is one of them. *)
Lemma fold_runningMin (xs : list D) (t : D) :
  d_number t -> Forall d_number xs ->
  let r := fold_left runningMin xs t in
  d_number r /\ (r <=? t) = true /\ Forall (fun a => (r <=? a) = true) xs
  /\ (r = t \/ In r xs).
Proof.
  intros Ht Hxs. revert t Ht.
  induction Hxs as [|x xs Hx _ IH]; intros t Ht; cbn [fold_left].
  - split; [exact Ht|]. split; [exact Ht|]. split; [constructor | now left].
  - destruct (runningMin_cases Ht Hx) as (Hn & Hle_t & Hle_x & Hsel).
    destruct (IH _ Hn) as (Hnr & Hr & Hall & Hin).
    split; [exact Hnr|]. split; [|split].
    + eapply d_le_trans; eassumption.
    + constructor; [eapply d_le_trans; eassumption | exact Hall].
    + destruct Hin as [Hin|Hin]; [|right; now right].
      rewrite Hin. destruct Hsel as [->| ->]; [now left | right; now left].
Qed.

Lemma fold_runningMax (xs : list D) (t : D) :
  d_number t -> Forall d_number xs ->
  let r := fold_left runningMax xs t in
  d_number r /\ (t <=? r) = true /\ Forall (fun a => (a <=? r) = true) xs
  /\ (r = t \/ In r xs).
Proof.
  intros Ht Hxs. revert t Ht.
  induction Hxs as [|x xs Hx _ IH]; intros t Ht; cbn [fold_left].
  - split; [exact Ht|]. split; [exact Ht|]. split; [constructor | now left].
  - destruct (runningMax_cases Ht Hx) as (Hn & Hle_t & Hle_x & Hsel).
    destruct (IH _ Hn) as (Hnr & Hr & Hall & Hin).
    split; [exact Hnr|]. split; [|split].
    + eapply d_le_trans; eassumption.
    + constructor; [eapply d_le_trans; eassumption | exact Hall].
    + destruct Hin as [Hin|Hin]; [|right; now right].
      rewrite Hin. destruct Hsel as [->| ->]; [now left | right; now left].
Qed.

Variables (m : memory D) (nelements : Z) (clipmin clipmax : D).

Local Notation "'kept'" := (accepted m nelements clipmin clipmax).
Local Notation "'out'" := (snd (computeMean_ m nelements clipmin clipmax)).

(** Every accepted pixel is a cell of the buffer that passes the test. *)
Lemma accepted_in_clip (x : D) :
  In x kept ->
  In x (pixels (image m) nelements) /\ in_clip clipmin clipmax x = true.
Proof. unfold accepted. apply filter_In. Qed.

Lemma accepted_numbers : Forall d_number kept.
Proof.
  apply Forall_forall. intros x Hx.
  apply accepted_in_clip in Hx. eapply in_clip_number, Hx.
Qed.

Lemma kept_between (a : D) :
  In a kept -> (clipmin <=? a) = true /\ (a <=? clipmax) = true.
Proof.
  intros Ha. apply accepted_in_clip in Ha. now apply in_clip_bounds.
Qed.

Lemma minValue_fold : minValue out = fold_left runningMin kept clipmax.
Proof.
  rewrite computeMean__minValue. unfold loop, loop_init.
  now rewrite fold_loop_body_components.
Qed.

Lemma maxValue_fold : maxValue out = fold_left runningMax kept clipmin.
Proof.
  rewrite computeMean__maxValue. unfold loop, loop_init.
  now rewrite fold_loop_body_components.
Qed.

(** With a pixel accepted, the returned minimum is below every accepted
    pixel, and it is an accepted pixel or else the seed [clipmax], which
    is then the same number as an accepted pixel. *)
Lemma minValue_least :
  kept <> [] ->
  d_number (minValue out)
  /\ (forall a, In a kept -> (minValue out <=? a) = true)
  /\ (In (minValue out) kept
      \/ minValue out = clipmax
         /\ exists a, In a kept /\ same_number clipmax a).
Proof.
  intros Hne. rewrite minValue_fold.
  destruct kept as [|a0 rest] eqn:Hk; [congruence|].
  assert (Ha0 : (a0 <=? clipmax) = true).
  { apply kept_between. rewrite Hk. now left. }
  pose proof accepted_numbers as Hnum. rewrite Hk in Hnum.
  destruct (fold_runningMin (d_le_number_r _ _ Ha0) Hnum)
    as (Hn & Hseed & Hall & Hsel).
  rewrite Forall_forall in Hall. repeat split; trivial.
  destruct Hsel as [Heq|Hin]; [right|now left].
  split; [exact Heq|]. exists a0. split; [now left|]. split; [|exact Ha0].
  rewrite Heq in Hall. apply Hall. now left.
Qed.

Lemma maxValue_greatest :
  kept <> [] ->
  d_number (maxValue out)
  /\ (forall a, In a kept -> (a <=? maxValue out) = true)
  /\ (In (maxValue out) kept
      \/ maxValue out = clipmin
         /\ exists a, In a kept /\ same_number clipmin a).
Proof.
  intros Hne. rewrite maxValue_fold.
  destruct kept as [|a0 rest] eqn:Hk; [congruence|].
  assert (Ha0 : (clipmin <=? a0) = true).
  { apply kept_between. rewrite Hk. now left. }
  pose proof accepted_numbers as Hnum. rewrite Hk in Hnum.
  destruct (fold_runningMax (d_le_number_l _ _ Ha0) Hnum)
    as (Hn & Hseed & Hall & Hsel).
  rewrite Forall_forall in Hall. repeat split; trivial.
  destruct Hsel as [Heq|Hin]; [right|now left].
  split; [exact Heq|]. exists a0. split; [now left|]. split; [exact Ha0|].
  rewrite Heq in Hall. apply Hall. now left.
Qed.

(** In both cases the returned extreme is the same number as an accepted
    pixel. *)
Lemma minValue_occurs :
  kept <> [] -> exists a, In a kept /\ same_number (minValue out) a.
Proof.
  intros Hne. destruct (minValue_least Hne) as (Hn & _ & [Hin|[Heq Hex]]).
  - exists (minValue out). split; [exact Hin | now apply same_number_refl].
  - rewrite Heq. exact Hex.
Qed.

Lemma maxValue_occurs :
  kept <> [] -> exists a, In a kept /\ same_number (maxValue out) a.
Proof.
  intros Hne. destruct (maxValue_greatest Hne) as (Hn & _ & [Hin|[Heq Hex]]).
  - exists (maxValue out). split; [exact Hin | now apply same_number_refl].
  - rewrite Heq. exact Hex.
Qed.

(** Where the same number means the same value, the returned extremes
    are accepted pixels. *)
Hypothesis same_number_eq : forall x y : D, same_number x y -> x = y.

Lemma minValue_in_kept : kept <> [] -> In (minValue out) kept.
Proof.
  intros Hne.
  destruct (minValue_occurs Hne) as (a & Ha & Hsame).
  now rewrite (same_number_eq Hsame).
Qed.

Lemma maxValue_in_kept : kept <> [] -> In (maxValue out) kept.
Proof.
  intros Hne.
  destruct (maxValue_occurs Hne) as (a & Ha & Hsame).
  now rewrite (same_number_eq Hsame).
Qed.

(** From a zero count, the returned count is positive only if a pixel
    was accepted. *)
Lemma positive_count :
  numGoodPixels m = 0%Z -> Int.is_int nelements ->
  (numGoodPixels out >= 1)%Z -> kept <> [].
Proof.
  intros H0 Hn Hpos.
  rewrite computeMean__numGoodPixels,
    (loop_count_from_zero _ _ _ H0 Hn) in Hpos.
  intros Hk. rewrite Hk in Hpos. cbn in Hpos. lia.
Qed.

End OrderFacts.

(** ** Runs in binary64 *)

Module FloatRuns.

Local Open Scope float_scope.

(** Both bounds are inside the range. *)
Example bounds_accepted :
  results (snd (computeMean_ (zeroed [2; 4]) 2 2 4))
  = (2%Z, 3, PrimFloat.sqrt 2, 2, 4).
Proof. vm_compute. reflexivity. Qed.

(** A NaN pixel fails both comparisons and is skipped. *)
Example nan_pixel_skipped :
  results (snd (computeMean_ (zeroed [1; nan; 3]) 3 0 10))
  = (2%Z, 2, PrimFloat.sqrt 2, 1, 3).
Proof. vm_compute. reflexivity. Qed.

(** Infinite bounds clip nothing. *)
Example infinite_bounds :
  results (snd (computeMean_ (zeroed [1; 2; 3]) 3 neg_infinity infinity))
  = (3%Z, 2, 1, 1, 3).
Proof. vm_compute. reflexivity. Qed.

(** The sign of a zero minimum or maximum follows the order of the
    pixels: [-0 < +0] is false, so the first zero met stays. *)
Example signed_zero_order :
  1 / minValue (snd (computeMean_ (zeroed [0; -0]) 2 (-1) 1)) = infinity
  /\ 1 / minValue (snd (computeMean_ (zeroed [-0; 0]) 2 (-1) 1))
     = neg_infinity
  /\ PrimFloat.eqb (minValue (snd (computeMean_ (zeroed [0; -0]) 2 (-1) 1)))
                   (minValue (snd (computeMean_ (zeroed [-0; 0]) 2 (-1) 1)))
     = true.
Proof. vm_compute. repeat split. Qed.

(** The single pixel [-0] between the bounds [-1] and [+0]: the returned
    minimum is the seed [+0], the same number as the pixel with the other
    sign. *)
Example seed_zero_returned :
  numGoodPixels (snd (computeMean_ (zeroed [-0]) 1 (-1) 0)) = 1%Z
  /\ 1 / minValue (snd (computeMean_ (zeroed [-0]) 1 (-1) 0)) = infinity
  /\ 1 / maxValue (snd (computeMean_ (zeroed [-0]) 1 (-1) 0)) = neg_infinity.
Proof. vm_compute. repeat split. Qed.

(** The routine called again on the memory it left, without the zeroing
    of [computeMean], goes on counting from the count it finds. *)
Example second_call_keeps_counting :
  numGoodPixels
    (snd (computeMean_ (snd (computeMean_ Inputs.entry_zero 1 0 2)) 1 0 2))
  = 2%Z.
Proof. vm_compute. reflexivity. Qed.

End FloatRuns.

(** ** Exact arithmetic: order and sums *)

Module XrealFacts.

Local Open Scope R_scope.

Lemma Rltb_true (a b : R) : Rltb a b = true <-> a < b.
Proof.
  unfold Rltb. destruct (Rlt_dec a b); split; (congruence || lra || auto).
Qed.

Lemma Rleb_true (a b : R) : Rleb a b = true <-> a <= b.
Proof.
  unfold Rleb. destruct (Rle_dec a b); split; (congruence || lra || auto).
Qed.

(** Case analysis on extended reals and on the comparisons met. *)
Ltac xreal_decide :=
  repeat (cbn in *; unfold Rltb, Rleb in *;
          match goal with
          | |- context [Rlt_dec ?a ?b] => destruct (Rlt_dec a b)
          | |- context [Rle_dec ?a ?b] => destruct (Rle_dec a b)
          | H : context [Rlt_dec ?a ?b] |- _ => destruct (Rlt_dec a b)
          | H : context [Rle_dec ?a ?b] |- _ => destruct (Rle_dec a b)
          end);
  cbn in *; unfold Rltb, Rleb in *;
  try reflexivity; try discriminate; try tauto; try congruence;
  try (exfalso; lra); try (f_equal; lra).

Ltac xreal_cases :=
  intros;
  repeat match goal with x : xreal |- _ => destruct x end;
  xreal_decide.

Lemma xle_antisym (x y : xreal) :
  xle x y = true -> xle y x = true -> x = y.
Proof. xreal_cases. Qed.

(** The clip test on real numbers is membership of the closed interval. *)
Lemma in_clip_finite (lo hi x : R) :
  in_clip (XFin lo) (XFin hi) (XFin x) = true <-> lo <= x <= hi.
Proof.
  unfold in_clip. cbn. rewrite andb_true_iff, !Rleb_true. tauto.
Qed.

(** Addition is commutative and associative, special values included. *)
Lemma xadd_comm (x y : xreal) : xadd x y = xadd y x.
Proof. xreal_cases. Qed.

Lemma xadd_assoc (x y z : xreal) : xadd (xadd x y) z = xadd x (xadd y z).
Proof. xreal_cases. Qed.

Lemma runningSum_swap (s x y : xreal) :
  runningSum (runningSum s x) y = runningSum (runningSum s y) x.
Proof.
  unfold runningSum. cbn.
  now rewrite !xadd_assoc, (xadd_comm x y).
Qed.

Lemma runningSumsq_swap (q x y : xreal) :
  runningSumsq (runningSumsq q x) y = runningSumsq (runningSumsq q y) x.
Proof.
  unfold runningSumsq. cbn.
  now rewrite !xadd_assoc, (xadd_comm (xmul x x)).
Qed.

Lemma runningMin_swap (t x y : xreal) :
  runningMin (runningMin t x) y = runningMin (runningMin t y) x.
Proof. unfold runningMin. xreal_cases. Qed.

Lemma runningMax_swap (t x y : xreal) :
  runningMax (runningMax t x) y = runningMax (runningMax t y) x.
Proof. unfold runningMax. xreal_cases. Qed.

(** The comparisons of the exact arithmetic are those of an ordered
    arithmetic, and there two values that are the same number are
    equal. *)
Lemma xreal_order_laws : DoubleOrder xreal.
Proof.
  constructor; unfold d_number; cbn [d_le d_lt xreal_Double]; xreal_cases.
Qed.

#[global] Existing Instance xreal_order_laws.

Lemma xreal_same_number_eq (x y : xreal) : same_number x y -> x = y.
Proof. intros [Hxy Hyx]. now apply xle_antisym. Qed.

Lemma xreal_number (x : xreal) : d_number x <-> x <> XNaN.
Proof.
  unfold d_number. cbn [d_le xreal_Double].
  destruct x as [a| | |]; cbn [xle]; split; intros Hx;
    try congruence; try reflexivity.
  apply Rleb_true. lra.
Qed.

End XrealFacts.

(** ** Binary64: the order of the comparisons *)

Module Binary64Facts.

(** Case analysis on specification floats: signs, then exponents, then
    mantissas. *)
Ltac spec_float_cases :=
  intros;
  repeat match goal with
         | x : spec_float |- _ => destruct x
         | b : bool |- _ => destruct b
         end;
  cbn in *; try discriminate; try reflexivity;
  repeat match goal with
         | H : context [Z.compare ?a ?b] |- _ =>
             destruct (Z.compare_spec a b); try discriminate
         | |- context [Z.compare ?a ?b] =>
             destruct (Z.compare_spec a b); try discriminate
         | H : context [Pos.compare_cont Eq ?a ?b] |- _ =>
             change (Pos.compare_cont Eq a b) with (Pos.compare a b) in H;
             destruct (Pos.compare_spec a b); try discriminate
         | |- context [Pos.compare_cont Eq ?a ?b] =>
             change (Pos.compare_cont Eq a b) with (Pos.compare a b);
             destruct (Pos.compare_spec a b); try discriminate
         end;
  cbn in *; try discriminate; try reflexivity; try lia.

Lemma SFleb_trans (x y z : spec_float) :
  SFleb x y = true -> SFleb y z = true -> SFleb x z = true.
Proof. unfold SFleb, SFcompare. spec_float_cases. Qed.

Lemma SFltb_SFleb (x y : spec_float) : SFltb x y = true -> SFleb x y = true.
Proof. unfold SFltb, SFleb, SFcompare. spec_float_cases. Qed.

Lemma SFltb_not_SFleb (x y : spec_float) :
  SFltb x y = true -> SFleb y x = false.
Proof. unfold SFltb, SFleb, SFcompare. spec_float_cases. Qed.

Lemma SFleb_total (x y : spec_float) :
  SFleb x x = true -> SFleb y y = true -> SFltb x y = false ->
  SFleb y x = true.
Proof. unfold SFltb, SFleb, SFcompare. spec_float_cases. Qed.

Lemma SFleb_number_l (x y : spec_float) :
  SFleb x y = true -> SFleb x x = true.
Proof. unfold SFleb, SFcompare. spec_float_cases. Qed.

Lemma SFleb_number_r (x y : spec_float) :
  SFleb x y = true -> SFleb y y = true.
Proof. unfold SFleb, SFcompare. spec_float_cases. Qed.

(** The comparisons of binary64 are those of an ordered arithmetic. *)
Lemma float_order_laws : DoubleOrder float.
Proof.
  constructor; unfold d_number; cbn [d_le d_lt float_Double]; intros *;
    rewrite ?leb_spec, ?ltb_spec.
  - apply SFleb_trans.
  - apply SFltb_SFleb.
  - apply SFltb_not_SFleb.
  - apply SFleb_total.
  - apply SFleb_number_l.
  - apply SFleb_number_r.
Qed.

#[global] Existing Instance float_order_laws.

End Binary64Facts.

(** ** Reductions over the accepted pixels, in exact arithmetic *)

(** A reduction whose steps commute does not see the order of the list. *)
Lemma fold_left_permutation {A B : Type} (f : A -> B -> A) :
  (forall s x y, f (f s x) y = f (f s y) x) ->
  forall xs ys, Permutation xs ys ->
  forall s, fold_left f xs s = fold_left f ys s.
Proof.
  intros Hswap xs ys Hperm.
  induction Hperm as [|x xs ys _ IH|x y xs|xs ys zs _ IH1 _ IH2]; intros s.
  - reflexivity.
  - cbn [fold_left]. apply IH.
  - cbn [fold_left]. now rewrite Hswap.
  - now rewrite IH1.
Qed.

Module ExactPass.

Import XrealFacts.

Local Open Scope R_scope.

(** On real pixels the running sums are the real sums. *)
Lemma fold_runningSum (xs : list xreal) (s : R) :
  Forall is_finite xs ->
  fold_left runningSum xs (XFin s)
  = XFin (s + Reference.total (map to_R xs)).
Proof.
  intros Hxs. revert s.
  induction Hxs as [|x xs Hx _ IH]; intros s; cbn [fold_left map].
  - cbn. f_equal. lra.
  - destruct x; try contradiction. cbn [runningSum d_add xreal_Double xadd].
    rewrite IH. unfold Reference.total. cbn [fold_right to_R].
    f_equal. lra.
Qed.

Lemma fold_runningSumsq (xs : list xreal) (q : R) :
  Forall is_finite xs ->
  fold_left runningSumsq xs (XFin q)
  = XFin (q + Reference.total (map (fun a => a * a) (map to_R xs))).
Proof.
  intros Hxs. revert q.
  induction Hxs as [|x xs Hx _ IH]; intros q; cbn [fold_left map].
  - cbn. f_equal. lra.
  - destruct x; try contradiction.
    cbn [runningSumsq d_add d_mul xreal_Double xadd xmul].
    rewrite IH. unfold Reference.total. cbn [fold_right to_R].
    f_equal. lra.
Qed.

(** On real pixels and bounds the clip test selects the samples of the
    closed interval. *)
Lemma accepted_count_in_range (lo hi : R) (xs : list R) :
  length (filter (in_clip (XFin lo) (XFin hi)) (map XFin xs))
  = Reference.count_in_range lo hi xs.
Proof.
  unfold Reference.count_in_range.
  induction xs as [|x xs IH]; [reflexivity|].
  cbn [map filter]. change (in_clip (XFin lo) (XFin hi) (XFin x))
    with (Rleb lo x && Rleb x hi)%bool.
  destruct (Rleb lo x && Rleb x hi)%bool; cbn [length]; now rewrite IH.
Qed.

End ExactPass.

(** ** Degenerate counts *)

Module Degenerate.

Import XrealFacts.

Lemma zero_over_zero : xdiv (XFin 0) (XFin 0) = XNaN.
Proof.
  cbn. destruct (Req_dec_T 0 0) as [_|Hne]; [|exfalso; lra].
  destruct (Rlt_dec 0 0); [exfalso; lra|]. reflexivity.
Qed.

Lemma over_one (a : R) : xdiv (XFin a) (XFin 1) = XFin a.
Proof.
  cbn. destruct (Req_dec_T 1 0) as [H1|_]; [exfalso; lra|].
  f_equal. field.
Qed.

(** No accepted pixel and a zero count: [0 / 0] for the mean, and NaN
    carried through the standard deviation. *)
Lemma zero_count (m : memory xreal) (nelements : Z)
      (clipmin clipmax : xreal) :
  numGoodPixels m = 0%Z ->
  accepted m nelements clipmin clipmax = [] ->
  let out := snd (computeMean_ m nelements clipmin clipmax) in
  mean out = XNaN /\ stddev out = XNaN.
Proof.
  intros H0 Ha out. subst out.
  rewrite computeMean__stddev, computeMean__mean.
  rewrite (loop_nothing_accepted _ _ _ _ Ha).
  unfold loop_init, stddev_numerator, stddev_divisor. rewrite H0.
  cbn. destruct (Req_dec_T 0 0) as [_|Hne]; [|exfalso; lra].
  destruct (Rlt_dec 0 0); [exfalso; lra|]. now cbn.
Qed.

(** The same in binary64. *)
Lemma zero_count_binary64 (m : memory float) (nelements : Z)
      (clipmin clipmax : float) :
  numGoodPixels m = 0%Z ->
  accepted m nelements clipmin clipmax = [] ->
  let out := snd (computeMean_ m nelements clipmin clipmax) in
  mean out = nan /\ stddev out = nan.
Proof.
  intros H0 Ha out. subst out.
  rewrite computeMean__stddev, computeMean__mean.
  rewrite (loop_nothing_accepted _ _ _ _ Ha).
  unfold loop_init, stddev_numerator, stddev_divisor. rewrite H0.
  cbn [fst snd sum sumsq]. split; vm_compute; reflexivity.
Qed.

(** What the loop leaves after exactly one accepted pixel [x], from a
    zero count. *)
Lemma loop_one_accepted (m : memory xreal) (nelements : Z)
      (clipmin clipmax x : xreal) :
  numGoodPixels m = 0%Z ->
  accepted m nelements clipmin clipmax = [x] ->
  loop m nelements clipmin clipmax
  = (1%Z,
     {| tmpMinValue := runningMin clipmax x;
        tmpMaxValue := runningMax clipmin x;
        sum := xadd (XFin 0) x;
        sumsq := xadd (XFin 0) (xmul x x) |}).
Proof.
  intros H0 Ha. rewrite loop_accepted_only, Ha.
  unfold loop_init. rewrite H0. cbn [fold_left].
  pose proof (in_eq x []) as Hin. rewrite <- Ha in Hin.
  apply accepted_in_clip in Hin. destruct Hin as [_ Hx].
  unfold loop_body. rewrite Hx. reflexivity.
Qed.

(** One accepted pixel: the argument of [sqrt] is NaN, whether the pixel
    is a real number ([0 / 0]) or an infinity. *)
Lemma one_count (m : memory xreal) (nelements : Z)
      (clipmin clipmax x : xreal) :
  numGoodPixels m = 0%Z ->
  accepted m nelements clipmin clipmax = [x] ->
  stddev (snd (computeMean_ m nelements clipmin clipmax)) = XNaN.
Proof.
  intros H0 Ha.
  assert (Hx : x <> XNaN).
  { apply xreal_number. eapply Forall_inv. rewrite <- Ha.
    apply accepted_numbers. }
  rewrite computeMean__stddev, computeMean__mean.
  rewrite (loop_one_accepted _ _ _ _ H0 Ha).
  unfold stddev_numerator, stddev_divisor.
  cbn [fst snd sum sumsq]. change (Int.sub 1 1) with 0%Z.
  destruct x as [a| | |]; [| | |congruence].
  - cbn. destruct (Req_dec_T 1 0) as [H1|_]; [exfalso; lra|].
    cbn. destruct (Req_dec_T 0 0) as [_|Hne]; [|exfalso; lra].
    replace (0 + a * a + - ((0 + a) / 1 * (0 + a)))%R with 0%R by field.
    destruct (Rlt_dec 0 0); [exfalso; lra|]. now cbn.
  - cbn. destruct (Rlt_dec 1 0); [exfalso; lra|]. now cbn.
  - cbn. destruct (Rlt_dec 1 0); [exfalso; lra|]. now cbn.
Qed.

End Degenerate.

(** ** Order of the pixels *)

Lemma Permutation_filter {A : Type} (f : A -> bool) (xs ys : list A) :
  Permutation xs ys -> Permutation (filter f xs) (filter f ys).
Proof.
  intros Hperm.
  induction Hperm as [|x xs ys _ IH|x y xs|xs ys zs _ IH1 _ IH2].
  - constructor.
  - cbn [filter]. destruct (f x); [now constructor | exact IH].
  - cbn [filter]. destruct (f x), (f y);
      try apply Permutation_refl. apply perm_swap.
  - now transitivity (filter f ys).
Qed.

(** Whatever the arithmetic, the count does not see the order. *)
Lemma loop_count_permutation {D : Type} `{Double D}
      (m m' : memory D) (nelements nelements' : Z) (clipmin clipmax : D) :
  Permutation (pixels (image m) nelements) (pixels (image m') nelements') ->
  numGoodPixels m = numGoodPixels m' ->
  fst (loop m nelements clipmin clipmax)
  = fst (loop m' nelements' clipmin clipmax).
Proof.
  intros Hperm Hcount. rewrite !loop_count, Hcount. f_equal.
  apply Permutation_length. unfold accepted. now apply Permutation_filter.
Qed.

(** In an ordered arithmetic the minimum and the maximum of two orders of
    the pixels are the same numbers. *)
Section ExtremesPermutation.

Context {D : Type} {HD : Double D} {HO : DoubleOrder D}.
Local Open Scope double_scope.

Lemma fold_runningMin_permutation (xs ys : list D) (t : D) :
  d_number t -> Forall d_number xs -> Permutation xs ys ->
  same_number (fold_left runningMin xs t) (fold_left runningMin ys t).
Proof.
  intros Ht Hxs Hperm.
  assert (Hys : Forall d_number ys) by now apply (Permutation_Forall Hperm).
  destruct (fold_runningMin Ht Hxs) as (_ & Hx_seed & Hx_all & Hx_sel).
  destruct (fold_runningMin Ht Hys) as (_ & Hy_seed & Hy_all & Hy_sel).
  rewrite Forall_forall in Hx_all, Hy_all. split.
  - destruct Hy_sel as [->|Hin]; [exact Hx_seed|].
    apply Hx_all. now apply (Permutation_in _ (Permutation_sym Hperm)).
  - destruct Hx_sel as [->|Hin]; [exact Hy_seed|].
    apply Hy_all. now apply (Permutation_in _ Hperm).
Qed.

Lemma fold_runningMax_permutation (xs ys : list D) (t : D) :
  d_number t -> Forall d_number xs -> Permutation xs ys ->
  same_number (fold_left runningMax xs t) (fold_left runningMax ys t).
Proof.
  intros Ht Hxs Hperm.
  assert (Hys : Forall d_number ys) by now apply (Permutation_Forall Hperm).
  destruct (fold_runningMax Ht Hxs) as (_ & Hx_seed & Hx_all & Hx_sel).
  destruct (fold_runningMax Ht Hys) as (_ & Hy_seed & Hy_all & Hy_sel).
  rewrite Forall_forall in Hx_all, Hy_all. split.
  - destruct Hx_sel as [->|Hin]; [exact Hy_seed|].
    apply Hy_all. now apply (Permutation_in _ Hperm).
  - destruct Hy_sel as [->|Hin]; [exact Hx_seed|].
    apply Hx_all. now apply (Permutation_in _ (Permutation_sym Hperm)).
Qed.

(** The returned extremes of two orders of the pixels: the seeds
    themselves when nothing is accepted, the same numbers otherwise. *)
Lemma extremes_permutation
      (m m' : memory D) (nelements nelements' : Z) (clipmin clipmax : D) :
  Permutation (pixels (image m) nelements) (pixels (image m') nelements') ->
  let out := snd (computeMean_ m nelements clipmin clipmax) in
  let out' := snd (computeMean_ m' nelements' clipmin clipmax) in
  (minValue out = minValue out' \/ same_number (minValue out) (minValue out'))
  /\ (maxValue out = maxValue out'
      \/ same_number (maxValue out) (maxValue out')).
Proof.
  intros Hperm out out'. subst out out'.
  rewrite !minValue_fold, !maxValue_fold.
  pose proof (Permutation_filter (in_clip clipmin clipmax) Hperm) as Hkept.
  fold (accepted m nelements clipmin clipmax) in Hkept.
  fold (accepted m' nelements' clipmin clipmax) in Hkept.
  destruct (accepted m nelements clipmin clipmax) as [|a0 rest] eqn:Hk.
  - apply Permutation_nil in Hkept. rewrite Hkept. split; now left.
  - pose proof (accepted_numbers m nelements clipmin clipmax) as Hnum.
    rewrite Hk in Hnum.
    destruct (kept_between m nelements clipmin clipmax a0) as [Hlo Hhi];
      [rewrite Hk; now left|].
    split; right.
    + apply fold_runningMin_permutation; trivial.
      eapply d_le_number_r, Hhi.
    + apply fold_runningMax_permutation; trivial.
      eapply d_le_number_l, Hlo.
Qed.

End ExtremesPermutation.

(** In exact arithmetic, neither does any of the running values. *)
Lemma loop_permutation
      (m m' : memory xreal) (nelements nelements' : Z)
      (clipmin clipmax : xreal) :
  Permutation (pixels (image m) nelements) (pixels (image m') nelements') ->
  numGoodPixels m = numGoodPixels m' ->
  loop m nelements clipmin clipmax = loop m' nelements' clipmin clipmax.
Proof.
  intros Hperm Hcount. unfold loop, loop_init.
  rewrite !fold_loop_body_components, Hcount.
  cbn [tmpMinValue tmpMaxValue sum sumsq].
  pose proof (Permutation_filter (in_clip clipmin clipmax) Hperm) as Hkept.
  rewrite (Permutation_length Hkept).
  rewrite (fold_left_permutation _ XrealFacts.runningMin_swap Hkept).
  rewrite (fold_left_permutation _ XrealFacts.runningMax_swap Hkept).
  rewrite (fold_left_permutation _ XrealFacts.runningSum_swap Hkept).
  rewrite (fold_left_permutation _ XrealFacts.runningSumsq_swap Hkept).
  reflexivity.
Qed.

(** ** The shortcut for the variance *)

Module VarianceFacts.

Import Reference.
Local Open Scope R_scope.

Lemma total_cons (x : R) (xs : list R) : total (x :: xs) = x + total xs.
Proof. reflexivity. Qed.

(** Squared deviations from any centre [c], expanded. *)
Lemma total_deviations (c : R) (xs : list R) :
  total (map (fun x => (x - c) * (x - c)) xs)
  = total (map (fun x => x * x) xs) - 2 * c * total xs + size xs * (c * c).
Proof.
  unfold size. induction xs as [|x xs IH].
  - cbn. lra.
  - cbn [map]. rewrite !total_cons, IH.
    change (length (x :: xs)) with (S (length xs)). rewrite S_INR. ring.
Qed.

Lemma total_deviations_nonneg (c : R) (xs : list R) :
  0 <= total (map (fun x => (x - c) * (x - c)) xs).
Proof.
  induction xs as [|x xs IH]; [cbn; lra|].
  cbn [map]. rewrite total_cons.
  pose proof (Rle_0_sqr (x - c)) as Hsq. unfold Rsqr in Hsq. lra.
Qed.

(** Around the mean, the sum of squared deviations is
    [sumsq - mean * sum]. *)
Lemma shortcut (xs : list R) :
  size xs <> 0 ->
  total (map (fun x => (x - sample_mean xs) * (x - sample_mean xs)) xs)
  = total (map (fun x => x * x) xs) - sample_mean xs * total xs.
Proof.
  intros Hn. rewrite total_deviations. unfold sample_mean. field. exact Hn.
Qed.

Lemma sample_variance_nonneg (xs : list R) :
  1 < size xs -> 0 <= sample_variance xs.
Proof.
  intros Hn. unfold sample_variance.
  apply Rmult_le_pos; [apply total_deviations_nonneg|].
  apply Rlt_le, Rinv_0_lt_compat. lra.
Qed.

Lemma size_of_nat (xs : list R) : size xs = IZR (Z.of_nat (length xs)).
Proof. unfold size. apply INR_IZR_INZ. Qed.

End VarianceFacts.

(** ** Mean and standard deviation of real pixels *)

Module ExactStatistics.

Import Reference.
Local Open Scope R_scope.

Section StatisticsOfCall.

Variables (m : memory xreal) (nelements : Z) (clipmin clipmax : xreal).

Local Notation "'kept'" := (accepted m nelements clipmin clipmax).
Local Notation "'exit'" := (loop m nelements clipmin clipmax).

Hypothesis real_pixels : Forall is_finite kept.

Lemma sum_real : sum (snd exit) = XFin (total (map to_R kept)).
Proof.
  unfold loop, loop_init. rewrite fold_loop_body_components.
  cbn [snd sum]. change (d_of_int 0) with (XFin 0).
  fold (accepted m nelements clipmin clipmax).
  rewrite (ExactPass.fold_runningSum 0 real_pixels). f_equal. lra.
Qed.

Lemma sumsq_real :
  sumsq (snd exit)
  = XFin (total (map (fun a => a * a) (map to_R kept))).
Proof.
  unfold loop, loop_init. rewrite fold_loop_body_components.
  cbn [snd sumsq]. change (d_of_int 0) with (XFin 0).
  fold (accepted m nelements clipmin clipmax).
  rewrite (ExactPass.fold_runningSumsq 0 real_pixels). f_equal. lra.
Qed.

Hypothesis zero_on_entry : numGoodPixels m = 0%Z.
Hypothesis nelements_int : Int.is_int nelements.

Lemma count_real : IZR (fst exit) = size (map to_R kept).
Proof.
  rewrite (loop_count_from_zero _ _ _ zero_on_entry nelements_int).
  rewrite VarianceFacts.size_of_nat. now rewrite length_map.
Qed.

(** The mean is the sample mean, provided a pixel was accepted. *)
Lemma mean_real :
  (fst exit >= 1)%Z ->
  (sum (snd exit) / d_of_int (fst exit))%D
  = XFin (sample_mean (map to_R kept)).
Proof.
  intros Hpos. rewrite sum_real. cbn [d_div d_of_int xreal_Double xdiv].
  destruct (Req_dec_T (IZR (fst exit)) 0) as [Hz|Hnz].
  - apply eq_IZR_R0 in Hz. lia.
  - unfold sample_mean. now rewrite count_real.
Qed.

(** The divisor [*numGoodPixels - 1], as a real. *)
Lemma divisor_real :
  (fst exit >= 1)%Z ->
  stddev_divisor (fst exit) = XFin (size (map to_R kept) - 1).
Proof.
  intros Hpos. unfold stddev_divisor, Int.sub.
  rewrite IntFacts.wrap_id.
  - cbn [d_of_int xreal_Double]. now rewrite minus_IZR, count_real.
  - pose proof (length_pixels_le clipmin clipmax (image m) nelements_int)
      as Hle.
    rewrite (loop_count_from_zero _ _ _ zero_on_entry nelements_int)
      in Hpos |- *.
    unfold Int.is_int, Int.INT_MIN, Int.INT_MAX in *.
    unfold accepted. lia.
Qed.

(** The numerator [sumsq - mean * sum] is the sum of the squared
    deviations from the mean. *)
Lemma numerator_real :
  (fst exit >= 1)%Z ->
  stddev_numerator (sum (snd exit) / d_of_int (fst exit))%D (snd exit)
  = XFin (total (map (fun x => (x - sample_mean (map to_R kept))
                               * (x - sample_mean (map to_R kept)))
                     (map to_R kept))).
Proof.
  intros Hpos. unfold stddev_numerator.
  rewrite (mean_real Hpos), sum_real, sumsq_real.
  cbn [d_sub d_mul xreal_Double xsub xmul xneg xadd]. f_equal.
  rewrite VarianceFacts.shortcut; [lra|].
  rewrite <- count_real. intros Hz. apply eq_IZR_R0 in Hz. lia.
Qed.

(** With two accepted pixels or more, the argument of [sqrt] is the
    unbiased sample variance. *)
Lemma variance_real :
  (fst exit >= 2)%Z ->
  (stddev_numerator (sum (snd exit) / d_of_int (fst exit))%D (snd exit)
   / stddev_divisor (fst exit))%D
  = XFin (sample_variance (map to_R kept)).
Proof.
  intros Htwo.
  rewrite numerator_real, divisor_real by lia.
  cbn [d_div xreal_Double xdiv].
  assert (Hsize : 2 <= size (map to_R kept)).
  { rewrite <- count_real. apply IZR_le. lia. }
  destruct (Req_dec_T (size (map to_R kept) - 1) 0) as [Hz|_];
    [exfalso; lra|].
  reflexivity.
Qed.

(** The returned standard deviation is then the square root of the
    sample variance. *)
Lemma stddev_real :
  (fst exit >= 2)%Z ->
  stddev (snd (computeMean_ m nelements clipmin clipmax))
  = XFin (sqrt (sample_variance (map to_R kept))).
Proof.
  intros Htwo. rewrite computeMean__stddev, computeMean__mean.
  rewrite (variance_real Htwo). cbn [d_sqrt xreal_Double xsqrt].
  assert (Hsize : 1 < size (map to_R kept)).
  { rewrite <- count_real. apply IZR_lt. lia. }
  pose proof (VarianceFacts.sample_variance_nonneg _ Hsize) as Hnonneg.
  destruct (Rlt_dec _ 0) as [Hneg|_]; [exfalso; lra | reflexivity].
Qed.

End StatisticsOfCall.

(** With infinite bounds every real pixel is accepted. *)
Lemma unclipped_accepts_reals (samples : list R) :
  filter (in_clip XNInf XPInf) (map XFin samples) = map XFin samples.
Proof.
  induction samples as [|x xs IH]; [reflexivity|].
  cbn [map filter]. change (in_clip XNInf XPInf (XFin x)) with true.
  cbn iota. now rewrite IH.
Qed.

Lemma to_R_XFin (samples : list R) : map to_R (map XFin samples) = samples.
Proof.
  induction samples as [|x xs IH]; [reflexivity|].
  cbn [map to_R]. now rewrite IH.
Qed.

Lemma reals_are_finite (samples : list R) :
  Forall is_finite (map XFin samples).
Proof. induction samples; constructor; [exact I | assumption]. Qed.

End ExactStatistics.

(** ** Runs in exact arithmetic *)

Module ExactRuns.

Import XrealFacts ExactInputs.

Local Open Scope R_scope.

Lemma keep_inside (lo hi x : R) (xs : list xreal) :
  lo <= x <= hi ->
  filter (in_clip (XFin lo) (XFin hi)) (XFin x :: xs)
  = XFin x :: filter (in_clip (XFin lo) (XFin hi)) xs.
Proof.
  intros Hx. cbn [filter].
  now rewrite (proj2 (in_clip_finite lo hi x) Hx).
Qed.

Lemma drop_outside (lo hi x : R) (xs : list xreal) :
  ~ (lo <= x <= hi) ->
  filter (in_clip (XFin lo) (XFin hi)) (XFin x :: xs)
  = filter (in_clip (XFin lo) (XFin hi)) xs.
Proof.
  intros Hx. cbn [filter].
  destruct (in_clip (XFin lo) (XFin hi) (XFin x)) eqn:E; [|reflexivity].
  apply in_clip_finite in E. contradiction.
Qed.

(** Evaluation of the clip test over a buffer of real numerals. *)
Ltac clip_reals :=
  repeat first [ rewrite keep_inside by lra
               | rewrite drop_outside by lra ].

Lemma accepted_two_to_four :
  accepted one_to_five 5 (XFin 2) (XFin 4) = [XFin 2; XFin 3; XFin 4].
Proof.
  unfold accepted, pixels, one_to_five, zeroed.
  change (Z.to_nat 5) with 5%nat. cbn [image firstn].
  clip_reals. reflexivity.
Qed.

Lemma accepted_ten_to_twenty :
  accepted five_fifteen_twentyfive 3 (XFin 10) (XFin 20) = [XFin 15].
Proof.
  unfold accepted, pixels, five_fifteen_twentyfive, zeroed.
  change (Z.to_nat 3) with 3%nat. cbn [image firstn].
  clip_reals. reflexivity.
Qed.

Lemma five_is_int : Int.is_int 5.
Proof. unfold Int.is_int, Int.INT_MIN, Int.INT_MAX. lia. Qed.

Lemma three_is_int : Int.is_int 3.
Proof. unfold Int.is_int, Int.INT_MIN, Int.INT_MAX. lia. Qed.

Lemma count_two_to_four :
  numGoodPixels (snd (computeMean_ one_to_five 5 (XFin 2) (XFin 4))) = 3%Z.
Proof.
  rewrite computeMean__numGoodPixels.
  rewrite loop_count_from_zero by (reflexivity || apply five_is_int).
  now rewrite accepted_two_to_four.
Qed.

Lemma count_ten_to_twenty :
  numGoodPixels
    (snd (computeMean_ five_fifteen_twentyfive 3 (XFin 10) (XFin 20)))
  = 1%Z.
Proof.
  rewrite computeMean__numGoodPixels.
  rewrite loop_count_from_zero by (reflexivity || apply three_is_int).
  now rewrite accepted_ten_to_twenty.
Qed.

(** Evaluation of the comparisons and equality tests between real
    numerals that a run meets. *)
Ltac decide_reals :=
  repeat match goal with
         | |- context [Rlt_dec ?a ?b] =>
             destruct (Rlt_dec a b); try (exfalso; lra)
         | |- context [Rle_dec ?a ?b] =>
             destruct (Rle_dec a b); try (exfalso; lra)
         | |- context [Req_dec_T ?a ?b] =>
             destruct (Req_dec_T a b); try (exfalso; lra)
         end.

(** Scenario 2 of the specification in exact arithmetic: the pixels
    1, ..., 5 clipped to [[2, 4]]. *)
Lemma scenario_2_exact :
  results (snd (computeMean_ one_to_five 5 (XFin 2) (XFin 4)))
  = (3%Z, XFin 3, XFin 1, XFin 2, XFin 4).
Proof.
  rewrite computeMean__results.
  unfold loop, loop_init. rewrite fold_loop_body_components.
  fold (accepted one_to_five 5 (XFin 2) (XFin 4)).
  rewrite accepted_two_to_four.
  cbn [length Nat.iter fold_left fst snd tmpMinValue tmpMaxValue sum sumsq
       one_to_five zeroed numGoodPixels].
  change (Nat.iter 3 (fun z : Z => Int.add z 1) 0%Z) with 3%Z.
  unfold stddev_numerator, stddev_divisor. change (Int.sub 3 1) with 2%Z.
  unfold runningSum, runningSumsq, runningMin, runningMax.
  cbn [d_add d_mul d_sub d_div d_sqrt d_lt d_of_int xreal_Double
       xadd xmul xsub xneg xlt sum sumsq].
  repeat (cbn [xlt xmul xadd xneg xdiv xsqrt]; unfold Rltb;
          progress decide_reals).
  replace ((0 + 2 + 3 + 4) / 3) with 3 by field.
  replace ((0 + 2 * 2 + 3 * 3 + 4 * 4 + - (3 * (0 + 2 + 3 + 4))) / 2)
    with 1 by field.
  now rewrite sqrt_1.
Qed.

End ExactRuns.

(** ** The outputs from the accepted pixels *)

(** A buffer read up to its own length is read whole. *)
Lemma pixels_all {D : Type} (buffer : list D) :
  pixels buffer (Z.of_nat (length buffer)) = buffer.
Proof. unfold pixels. rewrite Nat2Z.id. apply firstn_all. Qed.

(** In an ordered arithmetic a bound passes the test exactly when the
    range is not empty. *)
Lemma bound_accepted_iff {D : Type} {HD : Double D} {HO : DoubleOrder D}
      (clipmin clipmax : D) :
  (in_clip clipmin clipmax clipmin = true <-> (clipmin <=? clipmax)%D = true)
  /\ (in_clip clipmin clipmax clipmax = true
      <-> (clipmin <=? clipmax)%D = true).
Proof.
  split; split; intros Hx;
    try (apply in_clip_bounds in Hx; tauto);
    now apply bounds_in_clip.
Qed.

(** Whatever the arithmetic, the five outputs of the routine are
    reductions over the cells read that pass the test, in buffer order. *)
Lemma computeMean__closed_form {D : Type} `{Double D}
      (m : memory D) (nelements : Z) (clipmin clipmax : D) :
  let kept := filter (in_clip clipmin clipmax)
                     (firstn (Z.to_nat nelements) (image m)) in
  let out := snd (computeMean_ m nelements clipmin clipmax) in
  let total := fold_left (fun s x => s + x)%D kept (d_of_int 0) in
  let squares := fold_left (fun q x => q + x * x)%D kept (d_of_int 0) in
  numGoodPixels out
  = Nat.iter (length kept) (fun n => Int.add n 1) (numGoodPixels m)
  /\ minValue out
     = fold_left (fun t x => if (x <? t)%D then x else t) kept clipmax
  /\ maxValue out
     = fold_left (fun t x => if (t <? x)%D then x else t) kept clipmin
  /\ mean out = (total / d_of_int (numGoodPixels out))%D
  /\ stddev out
     = d_sqrt ((squares - mean out * total)
               / d_of_int (Int.sub (numGoodPixels out) 1))%D.
Proof.
  intros kept out total squares. subst out.
  rewrite computeMean__stddev, computeMean__mean, computeMean__numGoodPixels,
    computeMean__minValue, computeMean__maxValue.
  unfold loop, loop_init, stddev_numerator, stddev_divisor.
  rewrite fold_loop_body_components.
  cbn [fst snd tmpMinValue tmpMaxValue sum sumsq].
  repeat split.
Qed.

(** ** The pass over real pixels, in closed form *)

Module RealPass.

Import Reference XrealFacts.
Local Open Scope R_scope.

(** The samples of the closed interval, in their order. *)
Lemma accepted_reals (lo hi : R) (xs : list R) :
  filter (in_clip (XFin lo) (XFin hi)) (map XFin xs)
  = map XFin (filter (fun x => Rleb lo x && Rleb x hi) xs).
Proof.
  induction xs as [|x xs IH]; [reflexivity|].
  cbn [map filter]. change (in_clip (XFin lo) (XFin hi) (XFin x))
    with (Rleb lo x && Rleb x hi)%bool.
  destruct (Rleb lo x && Rleb x hi)%bool; cbn [map]; now rewrite IH.
Qed.

Lemma in_range (lo hi : R) (xs : list R) (x : R) :
  In x (filter (fun x => Rleb lo x && Rleb x hi) xs)
  <-> In x xs /\ lo <= x <= hi.
Proof.
  rewrite filter_In, andb_true_iff, !Rleb_true. tauto.
Qed.

Lemma runningMin_Rmin (t x : R) :
  runningMin (XFin t) (XFin x) = XFin (Rmin t x).
Proof.
  unfold runningMin. cbn [d_lt xreal_Double xlt]. unfold Rltb, Rmin.
  destruct (Rlt_dec x t), (Rle_dec t x); try (exfalso; lra);
    try reflexivity; f_equal; lra.
Qed.

Lemma runningMax_Rmax (t x : R) :
  runningMax (XFin t) (XFin x) = XFin (Rmax t x).
Proof.
  unfold runningMax. cbn [d_lt xreal_Double xlt]. unfold Rltb, Rmax.
  destruct (Rlt_dec t x), (Rle_dec t x); try (exfalso; lra);
    try reflexivity; f_equal; lra.
Qed.

Lemma fold_runningMin_reals (xs : list R) (t : R) :
  fold_left runningMin (map XFin xs) (XFin t) = XFin (fold_left Rmin xs t).
Proof.
  revert t. induction xs as [|x xs IH]; intros t; [reflexivity|].
  cbn [map fold_left]. now rewrite runningMin_Rmin, IH.
Qed.

Lemma fold_runningMax_reals (xs : list R) (t : R) :
  fold_left runningMax (map XFin xs) (XFin t) = XFin (fold_left Rmax xs t).
Proof.
  revert t. induction xs as [|x xs IH]; intros t; [reflexivity|].
  cbn [map fold_left]. now rewrite runningMax_Rmax, IH.
Qed.

(** The routine called with a zero count on a buffer of real samples,
    with real bounds: the state of the loop on exit and each output. *)
Section CallOnReals.

Variables (m : memory xreal) (samples : list R) (nelements : Z) (lo hi : R).

Hypothesis real_image : image m = map XFin samples.
Hypothesis zero_on_entry : numGoodPixels m = 0%Z.
Hypothesis nelements_int : Int.is_int nelements.

Local Notation "'kept'" :=
  (filter (fun x => Rleb lo x && Rleb x hi)
          (firstn (Z.to_nat nelements) samples)).
Local Notation "'exit'" := (loop m nelements (XFin lo) (XFin hi)).
Local Notation "'out'" := (snd (computeMean_ m nelements (XFin lo) (XFin hi))).

Lemma call_accepted :
  accepted m nelements (XFin lo) (XFin hi) = map XFin kept.
Proof.
  unfold accepted, pixels. rewrite real_image, firstn_map.
  apply accepted_reals.
Qed.

Lemma call_accepted_real :
  Forall is_finite (accepted m nelements (XFin lo) (XFin hi)).
Proof. rewrite call_accepted. apply ExactStatistics.reals_are_finite. Qed.

Lemma call_to_R : map to_R (accepted m nelements (XFin lo) (XFin hi)) = kept.
Proof. rewrite call_accepted. apply ExactStatistics.to_R_XFin. Qed.

Lemma call_loop_count : fst exit = Z.of_nat (length kept).
Proof.
  rewrite (loop_count_from_zero _ _ _ zero_on_entry nelements_int).
  now rewrite call_accepted, length_map.
Qed.

Lemma call_count : numGoodPixels out = Z.of_nat (length kept).
Proof. rewrite computeMean__numGoodPixels. apply call_loop_count. Qed.

Lemma call_minValue : minValue out = XFin (fold_left Rmin kept hi).
Proof. now rewrite minValue_fold, call_accepted, fold_runningMin_reals. Qed.

Lemma call_maxValue : maxValue out = XFin (fold_left Rmax kept lo).
Proof. now rewrite maxValue_fold, call_accepted, fold_runningMax_reals. Qed.

(** The state of the loop on exit: the count and the four running
    values. *)
Lemma call_loop :
  exit
  = (Z.of_nat (length kept),
     {| tmpMinValue := XFin (fold_left Rmin kept hi);
        tmpMaxValue := XFin (fold_left Rmax kept lo);
        sum := XFin (total kept);
        sumsq := XFin (total (map (fun x => x * x) kept)) |}).
Proof.
  pose proof call_loop_count as Hcount.
  pose proof (@ExactStatistics.sum_real m nelements (XFin lo) (XFin hi)
                call_accepted_real) as Hsum.
  pose proof (@ExactStatistics.sumsq_real m nelements (XFin lo) (XFin hi)
                call_accepted_real) as Hsumsq.
  pose proof call_minValue as Hmin. pose proof call_maxValue as Hmax.
  rewrite computeMean__minValue in Hmin.
  rewrite computeMean__maxValue in Hmax.
  rewrite call_to_R in Hsum, Hsumsq.
  destruct exit as [n l]. destruct l as [tmin tmax s q].
  cbn [fst snd tmpMinValue tmpMaxValue sum sumsq] in *.
  now subst.
Qed.

Lemma call_mean :
  mean out = match kept with
             | [] => XNaN
             | _ :: _ => XFin (sample_mean kept)
             end.
Proof.
  destruct kept as [|x rest] eqn:Hk.
  - apply Degenerate.zero_count; [exact zero_on_entry|].
    now rewrite call_accepted, Hk.
  - rewrite computeMean__mean.
    rewrite (@ExactStatistics.mean_real m nelements (XFin lo) (XFin hi)
               call_accepted_real zero_on_entry nelements_int).
    + now rewrite call_to_R, Hk.
    + rewrite call_loop_count, Hk. cbn [length]. lia.
Qed.

Lemma call_stddev :
  stddev out = match kept with
               | [] | [_] => XNaN
               | _ :: _ :: _ => XFin (sqrt (sample_variance kept))
               end.
Proof.
  destruct kept as [|x [|y rest]] eqn:Hk.
  - apply Degenerate.zero_count; [exact zero_on_entry|].
    now rewrite call_accepted, Hk.
  - apply Degenerate.one_count with (XFin x); [exact zero_on_entry|].
    now rewrite call_accepted, Hk.
  - rewrite (@ExactStatistics.stddev_real m nelements (XFin lo) (XFin hi)
               call_accepted_real zero_on_entry nelements_int).
    + now rewrite call_to_R, Hk.
    + rewrite call_loop_count, Hk. cbn [length]. lia.
Qed.

(** The five results. *)
Lemma call_results :
  results out
  = (Z.of_nat (length kept),
     match kept with
     | [] => XNaN
     | _ :: _ => XFin (sample_mean kept)
     end,
     match kept with
     | [] | [_] => XNaN
     | _ :: _ :: _ => XFin (sqrt (sample_variance kept))
     end,
     XFin (fold_left Rmin kept hi),
     XFin (fold_left Rmax kept lo)).
Proof.
  unfold results.
  now rewrite call_count, call_mean, call_stddev, call_minValue,
    call_maxValue.
Qed.

End CallOnReals.

(** The same for a whole buffer, read from zeroed outputs. *)
Lemma whole_results (samples : list R) (lo hi : R) :
  (PyArray_Size samples <= Int.INT_MAX)%Z ->
  let kept := filter (fun x => Rleb lo x && Rleb x hi) samples in
  results (snd (computeMean_ (zeroed (map XFin samples))
                             (PyArray_Size samples) (XFin lo) (XFin hi)))
  = (Z.of_nat (length kept),
     match kept with
     | [] => XNaN
     | _ :: _ => XFin (sample_mean kept)
     end,
     match kept with
     | [] | [_] => XNaN
     | _ :: _ :: _ => XFin (sqrt (sample_variance kept))
     end,
     XFin (fold_left Rmin kept hi),
     XFin (fold_left Rmax kept lo)).
Proof.
  intros Hsize kept. subst kept.
  assert (Hn : Int.is_int (PyArray_Size samples)).
  { unfold Int.is_int, PyArray_Size, Int.INT_MIN in *. lia. }
  rewrite (@call_results (zeroed (map XFin samples)) samples
             (PyArray_Size samples) lo hi eq_refl eq_refl Hn).
  unfold PyArray_Size. now rewrite Nat2Z.id, firstn_all.
Qed.

End RealPass.

(** * The claims *)

(** C1.  Clipping is inclusive at both ends.  On real numbers the test of
    the loop is membership of the closed interval [[clipmin, clipmax]], so
    a pixel equal to either bound of a range that is not empty is
    accepted; in any ordered arithmetic (binary64 and its infinite bounds
    included) a bound passes the test exactly when [clipmin <= clipmax],
    and NaN never does.  An accepted pixel is counted, added to the sum
    and to the sum of squares and considered for the minimum and the
    maximum; a pixel that fails the test (outside the range, or NaN)
    leaves the whole state as it is.

    The routine does this for each cell it reads.  Whatever the
    arithmetic, its five outputs are reductions over the cells read that
    pass the test, in buffer order: the count on entry incremented once
    per such cell, their running minimum from [clipmax], their running
    maximum from [clipmin], their sum over the count, and the square root
    of [(sumsq - mean * sum) / (count - 1)] for their sum and sum of
    squares; so the outputs are those of the pass over the accepted
    pixels alone.  On a buffer of real samples with real bounds and a
    zero count on entry, the loop ends with the number, the minimum, the
    maximum, the sum and the sum of the squares of exactly the samples
    read that lie in the closed interval. *)
Theorem C1_clipping_inclusive :
  (forall lo hi x : R,
      in_clip (XFin lo) (XFin hi) (XFin x) = true <-> (lo <= x <= hi)%R)
  /\ (forall lo hi : R, (lo <= hi)%R ->
        in_clip (XFin lo) (XFin hi) (XFin lo) = true
        /\ in_clip (XFin lo) (XFin hi) (XFin hi) = true)
  /\ (forall (D : Type) (HD : Double D) (HO : DoubleOrder D)
             (clipmin clipmax : D),
        (in_clip clipmin clipmax clipmin = true
         <-> (clipmin <=? clipmax)%D = true)
        /\ (in_clip clipmin clipmax clipmax = true
            <-> (clipmin <=? clipmax)%D = true))
  /\ (forall (D : Type) (HD : Double D) (HO : DoubleOrder D)
             (clipmin clipmax x : D),
        ~ d_number x -> in_clip clipmin clipmax x = false)
  /\ (forall (lo hi x : R) (n : Z) (tmin tmax s q : R),
        (lo <= x <= hi)%R ->
        loop_body (XFin lo) (XFin hi)
                  (n, {| tmpMinValue := XFin tmin; tmpMaxValue := XFin tmax;
                         sum := XFin s; sumsq := XFin q |})
                  (XFin x)
        = (Int.add n 1,
           {| tmpMinValue := XFin (Rmin tmin x);
              tmpMaxValue := XFin (Rmax tmax x);
              sum := XFin (s + x);
              sumsq := XFin (q + x * x) |}))
  /\ (forall (lo hi x : R) (st : Z * locals xreal),
        ~ (lo <= x <= hi)%R ->
        loop_body (XFin lo) (XFin hi) st (XFin x) = st)
  /\ (forall (D : Type) (HD : Double D) (clipmin clipmax x : D)
             (st : Z * locals D),
        in_clip clipmin clipmax x = false ->
        loop_body clipmin clipmax st x = st)
  /\ (forall (D : Type) (HD : Double D) (m : memory D) (nelements : Z)
             (clipmin clipmax : D),
        let kept := accepted m nelements clipmin clipmax in
        results (snd (computeMean_ m nelements clipmin clipmax))
        = results (snd (computeMean_
                          {| image := kept;
                             numGoodPixels := numGoodPixels m;
                             mean := mean m;
                             stddev := stddev m;
                             minValue := minValue m;
                             maxValue := maxValue m |}
                          (Z.of_nat (length kept)) clipmin clipmax)))
  /\ (forall (D : Type) (HD : Double D) (m : memory D) (nelements : Z)
             (clipmin clipmax : D),
        let kept := filter (in_clip clipmin clipmax)
                           (firstn (Z.to_nat nelements) (image m)) in
        let out := snd (computeMean_ m nelements clipmin clipmax) in
        let total := fold_left (fun s x => s + x)%D kept (d_of_int 0) in
        let squares :=
          fold_left (fun q x => q + x * x)%D kept (d_of_int 0) in
        numGoodPixels out
        = Nat.iter (length kept) (fun n => Int.add n 1) (numGoodPixels m)
        /\ (Int.is_int (numGoodPixels m) ->
            numGoodPixels out
            = Int.wrap (numGoodPixels m + Z.of_nat (length kept)))
        /\ minValue out
           = fold_left (fun t x => if (x <? t)%D then x else t) kept clipmax
        /\ maxValue out
           = fold_left (fun t x => if (t <? x)%D then x else t) kept clipmin
        /\ mean out = (total / d_of_int (numGoodPixels out))%D
        /\ stddev out
           = d_sqrt ((squares - mean out * total)
                     / d_of_int (Int.sub (numGoodPixels out) 1))%D)
  /\ (forall (m : memory xreal) (samples : list R) (nelements : Z)
             (lo hi : R),
        image m = map XFin samples ->
        numGoodPixels m = 0%Z ->
        Int.is_int nelements ->
        let read := firstn (Z.to_nat nelements) samples in
        let kept := filter (fun x => Rleb lo x && Rleb x hi) read in
        (forall x : R, In x kept <-> In x read /\ (lo <= x <= hi)%R)
        /\ accepted m nelements (XFin lo) (XFin hi) = map XFin kept
        /\ loop m nelements (XFin lo) (XFin hi)
           = (Z.of_nat (length kept),
              {| tmpMinValue := XFin (fold_left Rmin kept hi);
                 tmpMaxValue := XFin (fold_left Rmax kept lo);
                 sum := XFin (Reference.total kept);
                 sumsq := XFin (Reference.total
                                  (map (fun x => x * x)%R kept)) |})
        /\ numGoodPixels (snd (computeMean_ m nelements (XFin lo) (XFin hi)))
           = Z.of_nat (length kept)).
Proof.
  split; [exact XrealFacts.in_clip_finite|].
  split.
  { intros lo hi Hle. split; apply XrealFacts.in_clip_finite; lra. }
  split.
  { intros D HD HO clipmin clipmax. apply bound_accepted_iff. }
  split.
  { intros D HD HO clipmin clipmax x Hx. now apply not_number_rejected. }
  split.
  { intros lo hi x n tmin tmax s q Hx.
    apply XrealFacts.in_clip_finite in Hx.
    unfold loop_body. rewrite Hx.
    cbn [tmpMinValue tmpMaxValue sum sumsq d_lt d_add d_mul xreal_Double
         xlt xadd xmul].
    unfold Rltb, Rmin, Rmax.
    destruct (Rlt_dec x tmin), (Rle_dec tmin x), (Rlt_dec tmax x),
      (Rle_dec tmax x); try (exfalso; lra); repeat f_equal; lra. }
  split.
  { intros lo hi x st Hx. apply loop_body_rejected.
    destruct (in_clip (XFin lo) (XFin hi) (XFin x)) eqn:E; [|reflexivity].
    apply XrealFacts.in_clip_finite in E. contradiction. }
  split.
  { intros D HD clipmin clipmax x st Hx. now apply loop_body_rejected. }
  split.
  { intros D HD m nelements clipmin clipmax kept. subst kept.
    rewrite !computeMean__results.
    now rewrite (loop_of_accepted m nelements clipmin clipmax). }
  split.
  { intros D HD m nelements clipmin clipmax kept out total squares.
    destruct (computeMean__closed_form m nelements clipmin clipmax)
      as (Hcount & Hmin & Hmax & Hmean & Hstddev).
    fold kept in Hcount, Hmin, Hmax, Hmean, Hstddev.
    fold out in Hcount, Hmin, Hmax, Hmean, Hstddev.
    fold total in Hmean, Hstddev. fold squares in Hstddev.
    repeat split; trivial.
    intros Hentry. rewrite Hcount. now apply IntFacts.increments. }
  intros m samples nelements lo hi Himg H0 Hn read kept. subst read kept.
  split; [intros x; apply RealPass.in_range|].
  split; [now apply RealPass.call_accepted|].
  split; [now apply RealPass.call_loop|].
  now apply RealPass.call_count.
Qed.

(** C2, as stated, fails on the routine: with one pixel in range and 5 in
    [*numGoodPixels] on entry, [computeMean_] returns 6, not 1; with 0 on
    entry it returns 1.  The count depends on the entry value. *)
Lemma C2_counterexample :
  numGoodPixels (snd (computeMean_ Inputs.entry_five 1 0%float 2%float))
  <> Z.of_nat (length (accepted Inputs.entry_five 1 0%float 2%float))
  /\ length (accepted Inputs.entry_five 1 0%float 2%float) = 1%nat
  /\ numGoodPixels (snd (computeMean_ Inputs.entry_five 1 0%float 2%float))
     = 6%Z
  /\ numGoodPixels (snd (computeMean_ Inputs.entry_zero 1 0%float 2%float))
     = 1%Z.
Proof. vm_compute. repeat split. discriminate. Qed.

(** C2, amended.  The routine zeroes [sum] and [sumsq] but not the count:
    it increments the value that [*numGoodPixels] holds on entry once per
    pixel of the inclusive range, so it returns that value plus the number
    of accepted pixels, as an [int].  Called with 0 in the location it
    returns exactly the number of accepted pixels: so it does on the
    memory with zeroed outputs that lines 81-85 prepare, for a buffer read
    whole, and on real samples and bounds that number is the number of
    samples of the closed interval. *)
Theorem C2_count_starts_from_entry_value
        (D : Type) (HD : Double D) (m : memory D) (nelements : Z)
        (clipmin clipmax : D) :
  Int.is_int (numGoodPixels m) ->
  Int.is_int nelements ->
  let kept := accepted m nelements clipmin clipmax in
  numGoodPixels (snd (computeMean_ m nelements clipmin clipmax))
  = Int.wrap (numGoodPixels m + Z.of_nat (length kept))
  /\ (numGoodPixels m = 0%Z ->
      numGoodPixels (snd (computeMean_ m nelements clipmin clipmax))
      = Z.of_nat (length kept))
  /\ (forall buffer : list D,
         (PyArray_Size buffer <= Int.INT_MAX)%Z ->
         numGoodPixels (snd (computeMean_ (zeroed buffer)
                                          (PyArray_Size buffer)
                                          clipmin clipmax))
         = Z.of_nat (length (filter (in_clip clipmin clipmax) buffer)))
  /\ (forall (samples : list R) (lo hi : R),
         (PyArray_Size samples <= Int.INT_MAX)%Z ->
         numGoodPixels (snd (computeMean_ (zeroed (map XFin samples))
                                          (PyArray_Size samples)
                                          (XFin lo) (XFin hi)))
         = Z.of_nat (Reference.count_in_range lo hi samples)).
Proof.
  intros Hentry Hn kept. subst kept. rewrite computeMean__numGoodPixels.
  split; [now apply loop_count_wrap|].
  split; [intros H0; now apply loop_count_from_zero|].
  assert (Hzeroed :
            forall (T : Type) (HT : Double T) (lo hi : T)
                   (buffer : list T) (n : Z),
              n = Z.of_nat (length buffer) ->
              (n <= Int.INT_MAX)%Z ->
              numGoodPixels (snd (computeMean_ (zeroed buffer) n lo hi))
              = Z.of_nat (length (filter (in_clip lo hi) buffer))).
  { intros T HT lo hi buffer n -> Hsize.
    rewrite computeMean__numGoodPixels.
    rewrite loop_count_from_zero; [|reflexivity|].
    - unfold accepted. cbn [image zeroed]. now rewrite pixels_all.
    - unfold Int.is_int, Int.INT_MIN. lia. }
  split.
  - intros buffer Hsize. now apply Hzeroed.
  - intros samples lo hi Hsize. rewrite Hzeroed.
    + now rewrite ExactPass.accepted_count_in_range.
    + unfold PyArray_Size. now rewrite length_map.
    + exact Hsize.
Qed.

(** C2 at one pixel in range with 5 in [*numGoodPixels] on entry. *)
Lemma C2_witness :
  numGoodPixels
    (snd (computeMean_ Inputs.entry_five 1 0%float 2%float))
  = Int.wrap (5 + Z.of_nat (length (accepted Inputs.entry_five 1
                                             0%float 2%float))).
Proof.
  refine (proj1 (@C2_count_starts_from_entry_value
                   _ _ Inputs.entry_five 1%Z 0%float 2%float _ _)).
  - unfold Int.is_int, Int.INT_MIN, Int.INT_MAX. simpl. lia.
  - unfold Int.is_int, Int.INT_MIN, Int.INT_MAX. lia.
Defined.

(** C3.  If no pixel is accepted, the routine returns [clipmax] as the
    minimum and [clipmin] as the maximum, the seeds of the two running
    values, and leaves the count as it was.  Called with a zero count, as
    [computeMean] calls it, a returned count of zero means that no pixel
    was accepted.  The empty buffer is one such case. *)
Theorem C3_no_pixel_accepted
        (D : Type) (HD : Double D) (m : memory D) (nelements : Z)
        (clipmin clipmax : D) :
  let out := snd (computeMean_ m nelements clipmin clipmax) in
  (accepted m nelements clipmin clipmax = [] ->
   minValue out = clipmax /\ maxValue out = clipmin
   /\ numGoodPixels out = numGoodPixels m)
  /\ (numGoodPixels m = 0%Z -> Int.is_int nelements ->
      numGoodPixels out = 0%Z ->
      minValue out = clipmax /\ maxValue out = clipmin)
  /\ (image m = [] -> minValue out = clipmax /\ maxValue out = clipmin)
  /\ (tuple_numGoodPixels (computeMean [] clipmin clipmax) = 0%Z
      /\ tuple_minValue (computeMean [] clipmin clipmax) = clipmax
      /\ tuple_maxValue (computeMean [] clipmin clipmax) = clipmin).
Proof.
  intros out. subst out.
  pose proof (@nothing_accepted_outputs _ _ m nelements clipmin clipmax)
    as Hnone.
  split; [exact Hnone|]. split; [|split].
  - intros H0 Hn Hout.
    rewrite computeMean__numGoodPixels in Hout.
    rewrite (loop_count_from_zero _ _ _ H0 Hn) in Hout.
    destruct (accepted m nelements clipmin clipmax) as [|x xs] eqn:Ha.
    + destruct Hnone as (Hmin & Hmax & _); [reflexivity|]. now split.
    + cbn [length] in Hout. lia.
  - intros Himg.
    destruct Hnone as (Hmin & Hmax & _); [|now split].
    unfold accepted, pixels. rewrite Himg. now rewrite firstn_nil.
  - rewrite computeMean_unfold. cbv zeta.
    unfold results, tuple_numGoodPixels, tuple_minValue, tuple_maxValue.
    now cbn.
Qed.

(** C3 at two pixels, both outside the range [[10, 20]]. *)
Lemma C3_witness :
  minValue (snd (computeMean_ (zeroed [5; 25]%float) 2 10%float 20%float))
  = 20%float
  /\ maxValue (snd (computeMean_ (zeroed [5; 25]%float) 2 10%float 20%float))
     = 10%float.
Proof.
  refine (proj1 (proj2 (@C3_no_pixel_accepted
                          _ _ (zeroed [5; 25]%float) 2%Z 10%float 20%float))
                _ _ _).
  - reflexivity.
  - unfold Int.is_int, Int.INT_MIN, Int.INT_MAX. lia.
  - vm_compute. reflexivity.
Defined.

(** C4.  With at least one accepted pixel (a returned count of at least 1
    from a zero count on entry), in any ordered arithmetic the returned
    minimum and maximum lie within [[clipmin, clipmax]], each is the same
    number as an accepted pixel, no accepted pixel is below the minimum or
    above the maximum, and the minimum is not above the maximum.  Where the
    same number is the same value, as in exact arithmetic, the minimum and
    the maximum are themselves accepted pixels, cells of the buffer (in
    binary64 they can differ from the pixel by the sign of a zero). *)
Theorem C4_min_max_of_accepted
        (D : Type) (HD : Double D) (HO : DoubleOrder D)
        (m : memory D) (nelements : Z) (clipmin clipmax : D) :
  numGoodPixels m = 0%Z ->
  Int.is_int nelements ->
  let out := snd (computeMean_ m nelements clipmin clipmax) in
  let kept := accepted m nelements clipmin clipmax in
  (numGoodPixels out >= 1)%Z ->
  (exists a, In a kept /\ same_number (minValue out) a)
  /\ (exists a, In a kept /\ same_number (maxValue out) a)
  /\ ((clipmin <=? minValue out)%D = true
      /\ (minValue out <=? clipmax)%D = true)
  /\ ((clipmin <=? maxValue out)%D = true
      /\ (maxValue out <=? clipmax)%D = true)
  /\ (forall a, In a kept ->
        (minValue out <=? a)%D = true /\ (a <=? maxValue out)%D = true)
  /\ (minValue out <=? maxValue out)%D = true
  /\ ((forall x y : D, same_number x y -> x = y) ->
      In (minValue out) kept /\ In (maxValue out) kept
      /\ In (minValue out) (pixels (image m) nelements)
      /\ In (maxValue out) (pixels (image m) nelements)).
Proof.
  intros H0 Hn out kept Hpos.
  assert (Hne : kept <> []) by now apply positive_count.
  destruct (minValue_least m nelements clipmin clipmax Hne)
    as (_ & Hmin_le & _).
  destruct (maxValue_greatest m nelements clipmin clipmax Hne)
    as (_ & Hmax_le & _).
  destruct (minValue_occurs m nelements clipmin clipmax Hne)
    as (a & Ha & Hmin_a & Ha_min).
  destruct (maxValue_occurs m nelements clipmin clipmax Hne)
    as (b & Hb & Hmax_b & Hb_max).
  destruct (kept_between m nelements clipmin clipmax a Ha) as [Ha_lo Ha_hi].
  destruct (kept_between m nelements clipmin clipmax b Hb) as [Hb_lo Hb_hi].
  fold out in Hmin_le, Hmax_le, Hmin_a, Ha_min, Hmax_b, Hb_max.
  fold kept in Hmin_le, Hmax_le, Ha, Hb.
  split; [exists a; split; [exact Ha | split; assumption]|].
  split; [exists b; split; [exact Hb | split; assumption]|].
  split; [split; apply d_le_trans with a; assumption|].
  split; [split; apply d_le_trans with b; assumption|].
  split; [intros c Hc; split; [now apply Hmin_le | now apply Hmax_le]|].
  split.
  { apply d_le_trans with a; [exact Hmin_a | now apply Hmax_le]. }
  intros Hsame.
  pose proof (minValue_in_kept m nelements clipmin clipmax Hsame Hne)
    as Hmin_in.
  pose proof (maxValue_in_kept m nelements clipmin clipmax Hsame Hne)
    as Hmax_in.
  fold out in Hmin_in, Hmax_in. fold kept in Hmin_in, Hmax_in.
  repeat split; trivial.
  - now apply (accepted_in_clip m nelements clipmin clipmax).
  - now apply (accepted_in_clip m nelements clipmin clipmax).
Qed.

(** C4 at the pixels 1, ..., 5 clipped to [[2, 4]], in exact arithmetic,
    where the same number is the same value. *)
Lemma C4_witness :
  In (minValue (snd (computeMean_ ExactInputs.one_to_five 5
                                  (XFin 2) (XFin 4))))
     (accepted ExactInputs.one_to_five 5 (XFin 2) (XFin 4)).
Proof.
  assert (Hcount :
            (numGoodPixels (snd (computeMean_ ExactInputs.one_to_five 5
                                              (XFin 2) (XFin 4))) >= 1)%Z).
  { rewrite ExactRuns.count_two_to_four. lia. }
  pose proof (@C4_min_max_of_accepted
                xreal _ _ ExactInputs.one_to_five 5 (XFin 2) (XFin 4)
                eq_refl ExactRuns.five_is_int Hcount) as Hc.
  cbv zeta in Hc.
  apply Hc. exact XrealFacts.xreal_same_number_eq.
Defined.

(** C5.  With at least two accepted pixels, all real numbers, from a zero
    count on entry: in exact arithmetic the square of the returned
    standard deviation is [(sumsq - mean * sum) / (numGood - 1)], this
    quotient is the unbiased sample variance of the accepted pixels (the
    sum of the squared deviations from the mean over [n - 1]), and the
    returned mean is [sum / numGood], the sample mean. *)
Theorem C5_stddev_is_sample_stddev
        (m : memory xreal) (nelements : Z) (clipmin clipmax : xreal) :
  numGoodPixels m = 0%Z ->
  Int.is_int nelements ->
  let out := snd (computeMean_ m nelements clipmin clipmax) in
  let exit := snd (loop m nelements clipmin clipmax) in
  let xs := map to_R (accepted m nelements clipmin clipmax) in
  Forall is_finite (accepted m nelements clipmin clipmax) ->
  (numGoodPixels out >= 2)%Z ->
  (stddev out * stddev out)%D
  = (stddev_numerator (mean out) exit
     / stddev_divisor (numGoodPixels out))%D
  /\ (stddev_numerator (mean out) exit
      / stddev_divisor (numGoodPixels out))%D
     = XFin (Reference.sample_variance xs)
  /\ mean out = (sum exit / d_of_int (numGoodPixels out))%D
  /\ mean out = XFin (Reference.sample_mean xs)
  /\ stddev out = XFin (sqrt (Reference.sample_variance xs))
  /\ numGoodPixels out = Z.of_nat (length xs).
Proof.
  intros H0 Hn out exit xs Hreal Htwo. subst out exit xs.
  rewrite computeMean__numGoodPixels in Htwo.
  rewrite computeMean__stddev, computeMean__mean, computeMean__numGoodPixels.
  pose proof (@ExactStatistics.variance_real
                m nelements clipmin clipmax Hreal H0 Hn Htwo) as Hvar.
  assert (Hpos : (fst (loop m nelements clipmin clipmax) >= 1)%Z) by lia.
  pose proof (@ExactStatistics.mean_real
                m nelements clipmin clipmax Hreal H0 Hn Hpos) as Hmean.
  assert (Hsize : (1 < Reference.size
                         (map to_R (accepted m nelements clipmin clipmax)))%R).
  { rewrite <- (@ExactStatistics.count_real m nelements clipmin clipmax H0 Hn).
    apply IZR_lt. lia. }
  pose proof (VarianceFacts.sample_variance_nonneg _ Hsize) as Hnonneg.
  rewrite Hvar. cbn [d_sqrt d_mul xreal_Double xsqrt].
  destruct (Rlt_dec _ 0) as [Hneg|_]; [exfalso; lra|].
  cbn [xmul]. rewrite sqrt_sqrt by exact Hnonneg.
  repeat split; trivial.
  rewrite length_map. now apply loop_count_from_zero.
Qed.

(** C5 at the pixels 1, ..., 5 clipped to [[2, 4]]. *)
Lemma C5_witness :
  stddev (snd (computeMean_ ExactInputs.one_to_five 5 (XFin 2) (XFin 4)))
  = XFin (sqrt (Reference.sample_variance
                  (map to_R (accepted ExactInputs.one_to_five 5
                                      (XFin 2) (XFin 4))))).
Proof.
  refine (proj1 (proj2 (proj2 (proj2 (proj2
            (@C5_stddev_is_sample_stddev ExactInputs.one_to_five 5
                                         (XFin 2) (XFin 4) _ _ _ _)))))).
  - reflexivity.
  - apply ExactRuns.five_is_int.
  - rewrite ExactRuns.accepted_two_to_four. repeat constructor.
  - rewrite ExactRuns.count_two_to_four. lia.
Defined.

(** C6, as stated, fails on the routine for the mean: in binary64 the sum
    depends on the order of the additions.  On the pixels 1e20, 1, -1e20,
    all inside the range, the mean is 0; on the same pixels in the order
    1e20, -1e20, 1 it is 1/3. *)
Lemma C6_counterexample :
  Permutation Inputs.cancelling Inputs.cancelling_permuted
  /\ tuple_mean (computeMean Inputs.cancelling (-1e21)%float 1e21%float)
     <> tuple_mean (computeMean Inputs.cancelling_permuted
                                (-1e21)%float 1e21%float)
  /\ tuple_mean (computeMean Inputs.cancelling (-1e21)%float 1e21%float)
     = 0%float
  /\ tuple_mean (computeMean Inputs.cancelling_permuted
                             (-1e21)%float 1e21%float)
     = (1 / 3)%float.
Proof.
  split; [|split].
  - unfold Inputs.cancelling, Inputs.cancelling_permuted.
    apply perm_skip, perm_swap.
  - intros Heq.
    apply (f_equal (fun mean => PrimFloat.eqb mean 0%float)) in Heq.
    vm_compute in Heq. discriminate.
  - vm_compute. split; reflexivity.
Qed.

(** C6, amended.  In exact arithmetic the routine returns the same count,
    mean, standard deviation, minimum and maximum on a permutation of the
    pixels, and so does [computeMean] on a buffer whose size fits an
    [int].  The count is the same whatever the arithmetic, and in any
    ordered arithmetic, binary64 included, the minimum and the maximum of
    the two orders are the same numbers (the seeds themselves when nothing
    is accepted). *)
Theorem C6_permutation_exact :
  (forall (m m' : memory xreal) (nelements nelements' : Z)
          (clipmin clipmax : xreal),
      Permutation (pixels (image m) nelements)
                  (pixels (image m') nelements') ->
      numGoodPixels m = numGoodPixels m' ->
      results (snd (computeMean_ m nelements clipmin clipmax))
      = results (snd (computeMean_ m' nelements' clipmin clipmax)))
  /\ (forall (buffer buffer' : list xreal) (clipmin clipmax : xreal),
         Permutation buffer buffer' ->
         (PyArray_Size buffer <= Int.INT_MAX)%Z ->
         computeMean buffer clipmin clipmax
         = computeMean buffer' clipmin clipmax)
  /\ (forall (D : Type) (HD : Double D) (m m' : memory D)
             (nelements nelements' : Z) (clipmin clipmax : D),
         Permutation (pixels (image m) nelements)
                     (pixels (image m') nelements') ->
         numGoodPixels m = numGoodPixels m' ->
         numGoodPixels (snd (computeMean_ m nelements clipmin clipmax))
         = numGoodPixels (snd (computeMean_ m' nelements' clipmin clipmax)))
  /\ (forall (D : Type) (HD : Double D) (HO : DoubleOrder D)
             (m m' : memory D) (nelements nelements' : Z)
             (clipmin clipmax : D),
         Permutation (pixels (image m) nelements)
                     (pixels (image m') nelements') ->
         let out := snd (computeMean_ m nelements clipmin clipmax) in
         let out' := snd (computeMean_ m' nelements' clipmin clipmax) in
         (minValue out = minValue out'
          \/ same_number (minValue out) (minValue out'))
         /\ (maxValue out = maxValue out'
             \/ same_number (maxValue out) (maxValue out'))).
Proof.
  assert (Hroutine :
            forall (m m' : memory xreal) (nelements nelements' : Z)
                   (clipmin clipmax : xreal),
              Permutation (pixels (image m) nelements)
                          (pixels (image m') nelements') ->
              numGoodPixels m = numGoodPixels m' ->
              results (snd (computeMean_ m nelements clipmin clipmax))
              = results (snd (computeMean_ m' nelements' clipmin clipmax))).
  { intros m m' nelements nelements' clipmin clipmax Hperm Hcount.
    rewrite !computeMean__results.
    now rewrite (loop_permutation _ _ _ _ clipmin clipmax Hperm Hcount). }
  split; [exact Hroutine|]. split; [|split].
  - intros buffer buffer' clipmin clipmax Hperm Hsize.
    rewrite !computeMean_unfold. cbv zeta. apply Hroutine; [|reflexivity].
    cbn [image zeroed]. rewrite !pixels_whole; trivial.
    unfold PyArray_Size in *. now rewrite <- (Permutation_length Hperm).
  - intros D HD m m' nelements nelements' clipmin clipmax Hperm Hcount.
    rewrite !computeMean__numGoodPixels.
    now apply loop_count_permutation.
  - intros D HD HO m m' nelements nelements' clipmin clipmax Hperm.
    now apply extremes_permutation.
Qed.

(** C6 at the pixels 1, 2 and 2, 1. *)
Lemma C6_witness :
  results (snd (computeMean_ (zeroed [XFin 1; XFin 2]) 2 (XFin 0) (XFin 9)))
  = results (snd (computeMean_ (zeroed [XFin 2; XFin 1]) 2
                               (XFin 0) (XFin 9))).
Proof.
  refine (proj1 C6_permutation_exact
                (zeroed [XFin 1; XFin 2]) (zeroed [XFin 2; XFin 1])
                2%Z 2%Z (XFin 0) (XFin 9) _ _).
  - unfold pixels. change (Z.to_nat 2) with 2%nat.
    cbn [image zeroed firstn]. apply perm_swap.
  - reflexivity.
Defined.

(** C7.  With exactly one accepted pixel, a real number [x], from a zero
    count on entry: in exact arithmetic [sumsq] is [x * x] and
    [mean * sum] is [x * x], so the numerator [sumsq - mean * sum] is
    exactly zero, the divisor [numGood - 1] is zero, and the standard
    deviation is the square root of [0 / 0], NaN. *)
Theorem C7_single_pixel_zero_over_zero
        (m : memory xreal) (nelements : Z) (clipmin clipmax : xreal) :
  numGoodPixels m = 0%Z ->
  Int.is_int nelements ->
  let out := snd (computeMean_ m nelements clipmin clipmax) in
  let exit := snd (loop m nelements clipmin clipmax) in
  Forall is_finite (accepted m nelements clipmin clipmax) ->
  numGoodPixels out = 1%Z ->
  exists x : R,
    accepted m nelements clipmin clipmax = [XFin x]
    /\ sumsq exit = XFin (x * x)
    /\ (mean out * sum exit)%D = XFin (x * x)
    /\ stddev_numerator (mean out) exit = XFin 0
    /\ stddev_divisor (numGoodPixels out) = XFin 0
    /\ stddev out = d_sqrt (XFin 0 / XFin 0)%D
    /\ stddev out = XNaN.
Proof.
  intros H0 Hn out exit Hreal Hone. subst out exit.
  rewrite computeMean__numGoodPixels in Hone.
  pose proof (@loop_count_from_zero _ _ m nelements clipmin clipmax H0 Hn)
    as Hlen.
  rewrite Hone in Hlen.
  destruct (accepted m nelements clipmin clipmax) as [|a [|b rest]] eqn:Ha;
    cbn [length] in Hlen; try lia.
  destruct a as [x| | |]; try (inversion Hreal; contradiction).
  exists x.
  rewrite computeMean__stddev, computeMean__mean, computeMean__numGoodPixels.
  rewrite (@Degenerate.loop_one_accepted m nelements clipmin clipmax _ H0 Ha).
  unfold stddev_numerator, stddev_divisor.
  cbn [fst snd sum sumsq]. change (Int.sub 1 1) with 0%Z.
  cbn [d_of_int d_div d_mul d_sub d_sqrt xreal_Double xadd xmul].
  replace (0 + x)%R with x by lra.
  rewrite Degenerate.over_one. cbn [xmul xsub xneg xadd].
  replace (0 + x * x + - (x * x))%R with 0%R by lra.
  replace (0 + x * x)%R with (x * x)%R by lra.
  repeat split; trivial.
  now rewrite Degenerate.zero_over_zero.
Qed.

(** C7 at the pixels 5, 15, 25 clipped to [[10, 20]]. *)
Lemma C7_witness :
  exists x : R,
    accepted ExactInputs.five_fifteen_twentyfive 3 (XFin 10) (XFin 20)
    = [XFin x]
    /\ stddev_numerator
         (mean (snd (computeMean_ ExactInputs.five_fifteen_twentyfive 3
                                  (XFin 10) (XFin 20))))
         (snd (loop ExactInputs.five_fifteen_twentyfive 3
                    (XFin 10) (XFin 20)))
       = XFin 0.
Proof.
  destruct (@C7_single_pixel_zero_over_zero
              ExactInputs.five_fifteen_twentyfive 3 (XFin 10) (XFin 20))
    as (x & Hkept & _ & _ & Hnum & _).
  - reflexivity.
  - apply ExactRuns.three_is_int.
  - rewrite ExactRuns.accepted_ten_to_twenty. repeat constructor.
  - apply ExactRuns.count_ten_to_twenty.
  - exists x. now split.
Defined.

(** C8.  The routine has no error path: whatever the buffer, the length
    and the bounds, it returns status 1 and a memory whose five output
    locations hold its results, which do not depend on what the mean,
    standard deviation, minimum and maximum locations held before.  With
    the count zeroed on entry, as [computeMean] does, the degenerate cases
    show only in the values: no accepted pixel gives NaN for the mean
    ([0 / 0]) and for the standard deviation, in exact arithmetic and in
    binary64; one accepted pixel gives NaN for the standard deviation, in
    exact arithmetic.  [computeMean] drops the status and returns the five
    results whatever they are. *)
Theorem C8_no_error_signal :
  (forall (D : Type) (HD : Double D) (m : memory D) (nelements : Z)
          (clipmin clipmax : D),
      fst (computeMean_ m nelements clipmin clipmax) = 1%Z
      /\ forall m' : memory D,
           image m' = image m -> numGoodPixels m' = numGoodPixels m ->
           snd (computeMean_ m' nelements clipmin clipmax)
           = snd (computeMean_ m nelements clipmin clipmax))
  /\ (forall (D : Type) (HD : Double D) (buffer : list D)
             (clipmin clipmax : D),
         computeMean buffer clipmin clipmax
         = results (snd (computeMean_ (zeroed buffer)
                                      (Int.wrap (PyArray_Size buffer))
                                      clipmin clipmax)))
  /\ (forall (m : memory xreal) (nelements : Z) (clipmin clipmax : xreal),
         numGoodPixels m = 0%Z -> Int.is_int nelements ->
         let out := snd (computeMean_ m nelements clipmin clipmax) in
         (numGoodPixels out = 0%Z -> mean out = XNaN /\ stddev out = XNaN)
         /\ (numGoodPixels out = 1%Z -> stddev out = XNaN))
  /\ (forall (m : memory float) (nelements : Z) (clipmin clipmax : float),
         numGoodPixels m = 0%Z -> Int.is_int nelements ->
         let out := snd (computeMean_ m nelements clipmin clipmax) in
         numGoodPixels out = 0%Z -> mean out = nan /\ stddev out = nan).
Proof.
  split; [|split; [intros; apply computeMean_unfold|split]].
  - intros D HD m nelements clipmin clipmax.
    split; [apply computeMean__status|].
    intros m' Himg Hcount. unfold computeMean_.
    assert (Hloop : loop m' nelements clipmin clipmax
                    = loop m nelements clipmin clipmax).
    { unfold loop, loop_init. now rewrite Himg, Hcount. }
    rewrite Hloop, Himg. reflexivity.
  - intros m nelements clipmin clipmax H0 Hn out. subst out.
    rewrite computeMean__numGoodPixels, (loop_count_from_zero _ _ _ H0 Hn).
    destruct (accepted m nelements clipmin clipmax)
      as [|x [|y xs]] eqn:Ha; cbn [length]; split; intros Hcount;
      try lia.
    + now apply Degenerate.zero_count.
    + eapply Degenerate.one_count; eassumption.
  - intros m nelements clipmin clipmax H0 Hn out Hcount. subst out.
    rewrite computeMean__numGoodPixels, (loop_count_from_zero _ _ _ H0 Hn)
      in Hcount.
    apply Degenerate.zero_count_binary64; [exact H0|].
    destruct (accepted m nelements clipmin clipmax); [reflexivity|].
    cbn [length] in Hcount. lia.
Qed.

(** C9.  The routine only reads the buffer: the memory it returns holds
    the buffer it was given.  Its status and its five results are a
    function of the pixels it reads, of the clip bounds and of the count
    found in [*numGoodPixels] on entry; the values found in the four other
    output locations and the cells past [nelements] play no part.  So two
    calls on the same pixels and bounds from the same output state return
    the same five results. *)
Theorem C9_reads_only_and_deterministic (D : Type) (HD : Double D) :
  (forall (m : memory D) (nelements : Z) (clipmin clipmax : D),
      image (snd (computeMean_ m nelements clipmin clipmax)) = image m)
  /\ (forall (m1 m2 : memory D) (nelements : Z) (clipmin clipmax : D),
         pixels (image m1) nelements = pixels (image m2) nelements ->
         numGoodPixels m1 = numGoodPixels m2 ->
         fst (computeMean_ m1 nelements clipmin clipmax)
         = fst (computeMean_ m2 nelements clipmin clipmax)
         /\ results (snd (computeMean_ m1 nelements clipmin clipmax))
            = results (snd (computeMean_ m2 nelements clipmin clipmax)))
  /\ (forall (m1 m2 : memory D) (n1 n2 : Z) (lo1 hi1 lo2 hi2 : D),
         m1 = m2 -> n1 = n2 -> lo1 = lo2 -> hi1 = hi2 ->
         computeMean_ m1 n1 lo1 hi1 = computeMean_ m2 n2 lo2 hi2).
Proof.
  split; [intros; apply computeMean__image|]. split.
  - intros m1 m2 nelements clipmin clipmax Hpix Hcount.
    rewrite !computeMean__status, !computeMean__results.
    assert (Hloop : loop m1 nelements clipmin clipmax
                    = loop m2 nelements clipmin clipmax).
    { unfold loop, loop_init. now rewrite Hpix, Hcount. }
    now rewrite Hloop.
  - intros; now subst.
Qed.

(** C9 at two buffers that share their first cell, one cell read. *)
Lemma C9_witness :
  results (snd (computeMean_ Inputs.entry_zero 1 0%float 2%float))
  = results (snd (computeMean_ (zeroed [1; 7]%float) 1 0%float 2%float)).
Proof.
  refine (proj2 (proj1 (proj2 (@C9_reads_only_and_deterministic _ _))
                       Inputs.entry_zero (zeroed [1; 7]%float)
                       1%Z 0%float 2%float _ _)).
  - reflexivity.
  - reflexivity.
Defined.

(** C10.  Reversed bounds reject everything.  In any ordered arithmetic,
    if [clipmax < clipmin] no value passes the test, so no pixel is
    accepted, the count is left as it was on entry (zero under
    [computeMean]), the returned minimum is [clipmax] and the returned
    maximum is [clipmin], so the minimum is still below the maximum. *)
Theorem C10_reversed_bounds
        (D : Type) (HD : Double D) (HO : DoubleOrder D)
        (m : memory D) (nelements : Z) (clipmin clipmax : D) :
  (clipmax <? clipmin)%D = true ->
  let out := snd (computeMean_ m nelements clipmin clipmax) in
  (forall x : D, in_clip clipmin clipmax x = false)
  /\ accepted m nelements clipmin clipmax = []
  /\ numGoodPixels out = numGoodPixels m
  /\ minValue out = clipmax
  /\ maxValue out = clipmin
  /\ (minValue out <? maxValue out)%D = true.
Proof.
  intros Hrev out.
  assert (Hnone : accepted m nelements clipmin clipmax = []).
  { apply filter_none. intros x _. now apply reversed_bounds_reject. }
  destruct (nothing_accepted_outputs _ _ _ _ Hnone) as (Hmin & Hmax & Hcnt).
  subst out. rewrite Hmin, Hmax.
  repeat split; trivial.
  intros x. now apply reversed_bounds_reject.
Qed.

(** C10 at the pixels 1, 2, 3 with the bounds 3 and 1. *)
Lemma C10_witness :
  minValue (snd (computeMean_ (zeroed [1; 2; 3]%float) 3 3%float 1%float))
  = 1%float
  /\ maxValue (snd (computeMean_ (zeroed [1; 2; 3]%float) 3
                                 3%float 1%float))
     = 3%float.
Proof.
  assert (Hrev : (1 <? 3)%float = true) by reflexivity.
  pose proof (@C10_reversed_bounds float _ _ (zeroed [1; 2; 3]%float) 3
                                   3%float 1%float Hrev) as Hc.
  cbv zeta in Hc. split; apply Hc.
Defined.

(** * Further properties *)

(** The five concrete scenarios of the specification, run in binary64 on
    the routine called with zeroed outputs:
    [(numGoodPixels, mean, stddev, minValue, maxValue)] for each. *)
Theorem spec_scenarios_binary64 :
  results (snd (computeMean_ (zeroed [1; 2; 3; 4; 5]%float) 5
                             0%float 10%float))
  = (5%Z, 3, PrimFloat.sqrt 2.5, 1, 5)%float
  /\ results (snd (computeMean_ (zeroed [1; 2; 3; 4; 5]%float) 5
                                2%float 4%float))
     = (3%Z, 3, 1, 2, 4)%float
  /\ results (snd (computeMean_ (zeroed [10]%float) 1 0%float 20%float))
     = (1%Z, 10, nan, 10, 10)%float
  /\ results (snd (computeMean_ (zeroed []) 0 0%float 20%float))
     = (0%Z, nan, nan, 20, 0)%float
  /\ results (snd (computeMean_ (zeroed [5; 15; 25]%float) 3
                                10%float 20%float))
     = (1%Z, 15, nan, 15, 15)%float.
Proof. vm_compute. repeat split. Qed.

(** Without clipping (bounds [-infinity] and [+infinity]), on real
    samples and in exact arithmetic, the routine called with zeroed
    outputs on the whole buffer counts every sample, and returns the
    sample mean of a non-empty buffer and the square root of the unbiased
    sample variance of a buffer of two samples or more. *)
Theorem unclipped_statistics (samples : list R) :
  (PyArray_Size samples <= Int.INT_MAX)%Z ->
  let r := snd (computeMean_ (zeroed (map XFin samples))
                             (PyArray_Size samples) XNInf XPInf) in
  numGoodPixels r = Z.of_nat (length samples)
  /\ ((1 <= length samples)%nat ->
      mean r = XFin (Reference.sample_mean samples))
  /\ ((2 <= length samples)%nat ->
      stddev r = XFin (sqrt (Reference.sample_variance samples))).
Proof.
  intros Hsize r. subst r.
  set (m := zeroed (map XFin samples)).
  set (n := PyArray_Size samples).
  assert (H0 : numGoodPixels m = 0%Z) by reflexivity.
  assert (Hn : Int.is_int n).
  { unfold Int.is_int, n, PyArray_Size, Int.INT_MIN in *. lia. }
  assert (Hkept : accepted m n XNInf XPInf = map XFin samples).
  { unfold accepted, m, n, PyArray_Size. cbn [image zeroed].
    rewrite <- (length_map XFin samples), pixels_all.
    apply ExactStatistics.unclipped_accepts_reals. }
  assert (Hreal : Forall is_finite (accepted m n XNInf XPInf)).
  { rewrite Hkept. apply ExactStatistics.reals_are_finite. }
  assert (Hcount : fst (loop m n XNInf XPInf) = Z.of_nat (length samples)).
  { rewrite (loop_count_from_zero _ _ _ H0 Hn), Hkept. now rewrite length_map. }
  split; [now rewrite computeMean__numGoodPixels|]. split.
  - intros Hone. rewrite computeMean__mean.
    rewrite (@ExactStatistics.mean_real m n XNInf XPInf Hreal H0 Hn)
      by (rewrite Hcount; lia).
    now rewrite Hkept, ExactStatistics.to_R_XFin.
  - intros Htwo.
    rewrite (@ExactStatistics.stddev_real m n XNInf XPInf Hreal H0 Hn)
      by (rewrite Hcount; lia).
    now rewrite Hkept, ExactStatistics.to_R_XFin.
Qed.

(** The unclipped statistics of the samples 1, 2, 3. *)
Lemma unclipped_statistics_witness :
  numGoodPixels (snd (computeMean_ (zeroed (map XFin [1; 2; 3]%R))
                                   (PyArray_Size [1; 2; 3]%R) XNInf XPInf))
  = 3%Z.
Proof.
  refine (proj1 (@unclipped_statistics [1; 2; 3]%R _)).
  unfold PyArray_Size, Int.INT_MAX. cbn [length]. lia.
Defined.

(** ** The count and the size of the buffer *)

Lemma filter_length_all {A : Type} (f : A -> bool) (xs : list A) :
  length (filter f xs) = length xs <-> Forall (fun x => f x = true) xs.
Proof.
  induction xs as [|x xs IH]; cbn [filter length].
  - split; [constructor | reflexivity].
  - pose proof (filter_length_le f xs) as Hle.
    destruct (f x) eqn:Hx; cbn [length]; split; intros Hall.
    + constructor; [exact Hx|]. apply IH. lia.
    + f_equal. apply IH. now inversion Hall.
    + lia.
    + inversion Hall; congruence.
Qed.

Lemma filter_length_none {A : Type} (f : A -> bool) (xs : list A) :
  length (filter f xs) = 0%nat <-> Forall (fun x => f x = false) xs.
Proof.
  induction xs as [|x xs IH]; cbn [filter length].
  - split; [constructor | reflexivity].
  - destruct (f x) eqn:Hx; cbn [length]; split; intros Hall.
    + lia.
    + inversion Hall; congruence.
    + constructor; [exact Hx | now apply IH].
    + apply IH. now inversion Hall.
Qed.

(** A test implied by another one selects fewer elements. *)
Lemma filter_length_implied {A : Type} (f g : A -> bool) (xs : list A) :
  (forall x, In x xs -> f x = true -> g x = true) ->
  (length (filter f xs) <= length (filter g xs))%nat.
Proof.
  induction xs as [|x xs IH]; intros Himp; [reflexivity|].
  assert (IH' : (length (filter f xs) <= length (filter g xs))%nat).
  { apply IH. intros y Hy. apply Himp. now right. }
  cbn [filter]. destruct (f x) eqn:Hf.
  - rewrite (Himp x (or_introl eq_refl) Hf). cbn [length]. lia.
  - destruct (g x); cbn [length]; lia.
Qed.

(** The size of a buffer stored in an [int] is not above the size. *)
Lemma wrap_size_le {D : Type} (buffer : list D) :
  (Int.wrap (PyArray_Size buffer) <= PyArray_Size buffer)%Z.
Proof.
  unfold Int.wrap, PyArray_Size, Int.INT_MIN, Int.modulus.
  pose proof (Z.mod_le (Z.of_nat (length buffer) - -2147483648) 4294967296).
  lia.
Qed.

(** Whatever the arithmetic, called with a zero count and a length that
    is an [int], the routine returns a count between 0 and the number of
    cells it reads, which is at most the number of cells of the buffer
    and at most [nelements]; the count is an [int]; it is the number of
    cells read exactly when every cell read passes the clip test, and 0
    exactly when none does. *)
Theorem numGood_within_buffer (D : Type) (HD : Double D)
        (m : memory D) (nelements : Z) (clipmin clipmax : D) :
  numGoodPixels m = 0%Z ->
  Int.is_int nelements ->
  let n := numGoodPixels (snd (computeMean_ m nelements clipmin clipmax)) in
  let read := pixels (image m) nelements in
  (0 <= n <= Z.of_nat (length read))%Z
  /\ (Z.of_nat (length read) <= Z.of_nat (length (image m)))%Z
  /\ (Z.of_nat (length read) <= Z.max 0 nelements)%Z
  /\ (n <= Int.INT_MAX)%Z
  /\ (n = Z.of_nat (length read)
      <-> Forall (fun x => in_clip clipmin clipmax x = true) read)
  /\ (n = 0%Z
      <-> Forall (fun x => in_clip clipmin clipmax x = false) read).
Proof.
  intros H0 Hn n read. subst n read.
  rewrite computeMean__numGoodPixels, (loop_count_from_zero _ _ _ H0 Hn).
  unfold accepted.
  set (read := pixels (image m) nelements).
  pose proof (filter_length_le (in_clip clipmin clipmax) read) as Hle.
  assert (Hread : (length read <= length (image m))%nat
                  /\ (Z.of_nat (length read) <= Z.max 0 nelements)%Z).
  { unfold read, pixels. rewrite length_firstn. lia. }
  split; [lia|]. split; [lia|]. split; [lia|]. split.
  { apply (length_pixels_le clipmin clipmax (image m) Hn). }
  split.
  - rewrite <- filter_length_all. lia.
  - rewrite <- filter_length_none. lia.
Qed.

(** The cells 1, 5, 2 clipped to [[0, 3]], in binary64. *)
Lemma numGood_within_buffer_witness :
  (0 <= numGoodPixels (snd (computeMean_ (zeroed [1; 5; 2]%float) 3
                                         0%float 3%float))
   <= Z.of_nat (length (pixels (image (zeroed [1; 5; 2]%float)) 3)))%Z.
Proof.
  refine (proj1 (@numGood_within_buffer
                   float _ (zeroed [1; 5; 2]%float) 3 0%float 3%float _ _)).
  - reflexivity.
  - unfold Int.is_int, Int.INT_MIN, Int.INT_MAX. lia.
Defined.

(** Called with a zero count and a length that is an [int], as
    [computeMean] calls it, the routine never overflows its counter: when
    the loop reaches an accepted cell, the counter holds the number of
    cells accepted before it, below [INT_MAX], so line 48 adds one
    exactly; and the final count is at least 1 and at most [INT_MAX], so
    [*numGoodPixels - 1] on line 61 is exact too. *)
Theorem counter_never_overflows (D : Type) (HD : Double D)
        (m : memory D) (nelements : Z) (clipmin clipmax : D)
        (before : list D) (x : D) (after : list D) :
  numGoodPixels m = 0%Z ->
  Int.is_int nelements ->
  pixels (image m) nelements = before ++ x :: after ->
  in_clip clipmin clipmax x = true ->
  let n := fst (fold_left (loop_body clipmin clipmax) before
                          (loop_init m clipmin clipmax)) in
  let final := numGoodPixels (snd (computeMean_ m nelements clipmin clipmax)) in
  n = Z.of_nat (length (filter (in_clip clipmin clipmax) before))
  /\ (0 <= n < Int.INT_MAX)%Z
  /\ Int.add n 1 = (n + 1)%Z
  /\ (1 <= final <= Int.INT_MAX)%Z
  /\ Int.sub final 1 = (final - 1)%Z.
Proof.
  intros H0 Hn Hsplit Hx n final.
  pose proof (length_pixels_le clipmin clipmax (image m) Hn) as Hall.
  rewrite Hsplit, filter_app, length_app in Hall.
  cbn [filter] in Hall. rewrite Hx in Hall. cbn [length] in Hall.
  assert (Hbefore : n = Z.of_nat (length (filter (in_clip clipmin clipmax)
                                                 before))).
  { subst n. unfold loop_init. rewrite fold_loop_body_count, H0.
    rewrite IntFacts.increments by apply IntFacts.zero_is_int.
    apply IntFacts.wrap_id.
    unfold Int.is_int, Int.INT_MIN, Int.INT_MAX in *. lia. }
  assert (Hfinal : final
                   = Z.of_nat (length (filter (in_clip clipmin clipmax) before)
                               + S (length (filter (in_clip clipmin clipmax)
                                                   after)))).
  { subst final. rewrite computeMean__numGoodPixels.
    rewrite (loop_count_from_zero _ _ _ H0 Hn). unfold accepted.
    rewrite Hsplit, filter_app, length_app. cbn [filter]. rewrite Hx.
    reflexivity. }
  split; [exact Hbefore|].
  unfold Int.INT_MAX in *.
  split; [lia|]. split.
  - unfold Int.add. apply IntFacts.wrap_id.
    unfold Int.is_int, Int.INT_MIN, Int.INT_MAX. lia.
  - split; [lia|]. unfold Int.sub. apply IntFacts.wrap_id.
    unfold Int.is_int, Int.INT_MIN, Int.INT_MAX. lia.
Qed.

(** The increment at the second of the two cells 1, 2, both accepted. *)
Lemma counter_never_overflows_witness :
  Int.add (fst (fold_left (loop_body 0%float 9%float) [1%float]
                          (loop_init (zeroed [1; 2]%float) 0%float 9%float)))
          1
  = (fst (fold_left (loop_body 0%float 9%float) [1%float]
                    (loop_init (zeroed [1; 2]%float) 0%float 9%float)) + 1)%Z.
Proof.
  refine (proj1 (proj2 (proj2
            (@counter_never_overflows
               float _ (zeroed [1; 2]%float) 2 0%float 9%float
               [1%float] 2%float [] _ _ _ _)))).
  - reflexivity.
  - unfold Int.is_int, Int.INT_MIN, Int.INT_MAX. lia.
  - reflexivity.
  - reflexivity.
Defined.

(** The length reaches the routine in an [int] parameter (line 17), and
    line 87 passes the size of the buffer there.  With the size stored in
    an [int], whatever the arithmetic and the bounds: if the size fits an
    [int] the routine reads the whole buffer; if the size is above
    [INT_MAX] and at most [2^32] the stored length is zero or negative,
    the loop reads no cell, the count is left as it was and the minimum
    and maximum are the seeds [clipmax] and [clipmin]; in every case the
    stored length is at most the size and the results are those of the
    buffer cut to that many cells. *)
Theorem size_stored_in_int (D : Type) (HD : Double D)
        (m : memory D) (clipmin clipmax : D) :
  let size := PyArray_Size (image m) in
  let n := Int.wrap size in
  let out := snd (computeMean_ m n clipmin clipmax) in
  ((size <= Int.INT_MAX)%Z -> n = size /\ pixels (image m) n = image m)
  /\ ((Int.INT_MAX < size <= Int.modulus)%Z ->
      (n <= 0)%Z
      /\ pixels (image m) n = []
      /\ numGoodPixels out = numGoodPixels m
      /\ minValue out = clipmax
      /\ maxValue out = clipmin)
  /\ (n <= size)%Z
  /\ (forall m' : memory D,
         image m' = firstn (Z.to_nat n) (image m) ->
         numGoodPixels m' = numGoodPixels m ->
         results (snd (computeMean_ m' (PyArray_Size (image m'))
                                    clipmin clipmax))
         = results out).
Proof.
  intros size n out.
  pose proof (wrap_size_le (image m)) as Hle. fold size in Hle. fold n in Hle.
  split; [|split; [|split; [exact Hle|]]].
  - intros Hsize. split.
    + apply IntFacts.wrap_id. unfold Int.is_int, Int.INT_MIN, size,
        PyArray_Size in *. lia.
    + exact (pixels_whole (image m) Hsize).
  - intros [Hlow Hhigh].
    assert (Hneg : (n <= 0)%Z).
    { unfold n, Int.wrap, Int.INT_MIN, Int.INT_MAX, Int.modulus in *.
      replace (size - -2147483648)%Z
        with ((size - 2147483648) + 1 * 4294967296)%Z by lia.
      rewrite Z_mod_plus_full, Z.mod_small by lia. lia. }
    assert (Hnone : pixels (image m) n = []).
    { unfold pixels. now replace (Z.to_nat n) with 0%nat by lia. }
    split; [exact Hneg|]. split; [exact Hnone|].
    destruct (@nothing_accepted_outputs _ _ m n clipmin clipmax)
      as (Hmin & Hmax & Hcount).
    + unfold accepted. now rewrite Hnone.
    + subst out. now rewrite Hmin, Hmax, Hcount.
  - intros m' Himg Hcount. subst out. rewrite !computeMean__results.
    assert (Hloop : loop m' (PyArray_Size (image m')) clipmin clipmax
                    = loop m n clipmin clipmax).
    { unfold loop, loop_init. rewrite Hcount. f_equal.
      unfold PyArray_Size. rewrite pixels_all, Himg. reflexivity. }
    now rewrite Hloop.
Qed.

(** ** Calls in sequence on the same output locations *)

(** The routine called on a buffer [a] and then on a buffer [b] with the
    same output locations, without zeroing the count in between: the
    count goes on from the first call, so the second call returns the
    count of one call on [a] followed by [b]; the sums and the extremes
    start afresh, so the second call returns the minimum and maximum of
    [b] alone, and as mean the sum of the accepted pixels of [b] over the
    count of both buffers. *)
Theorem successive_calls (D : Type) (HD : Double D)
        (m : memory D) (a b : list D) (clipmin clipmax : D) :
  let on := fun (buffer : list D) (s : memory D) =>
    {| image := buffer; numGoodPixels := numGoodPixels s;
       mean := mean s; stddev := stddev s;
       minValue := minValue s; maxValue := maxValue s |} in
  let size := fun buffer : list D => Z.of_nat (length buffer) in
  let first := snd (computeMean_ (on a m) (size a) clipmin clipmax) in
  let second := snd (computeMean_ (on b first) (size b) clipmin clipmax) in
  let whole :=
    snd (computeMean_ (on (a ++ b) m) (size (a ++ b)) clipmin clipmax) in
  let alone := snd (computeMean_ (zeroed b) (size b) clipmin clipmax) in
  numGoodPixels second = numGoodPixels whole
  /\ minValue second = minValue alone
  /\ maxValue second = maxValue alone
  /\ mean second
     = (sum (snd (loop (zeroed b) (size b) clipmin clipmax))
        / d_of_int (numGoodPixels whole))%D.
Proof.
  intros on size first second whole alone.
  assert (Hcount : numGoodPixels second = numGoodPixels whole).
  { subst second whole first. rewrite !computeMean__numGoodPixels.
    rewrite !loop_count. unfold accepted, on, size.
    cbn [image numGoodPixels]. rewrite computeMean__numGoodPixels, loop_count.
    unfold accepted. cbn [image numGoodPixels].
    rewrite !pixels_all, filter_app, length_app, Nat.add_comm.
    now rewrite Nat.iter_add. }
  assert (Hloop : snd (loop (on b first) (size b) clipmin clipmax)
                  = snd (loop (zeroed b) (size b) clipmin clipmax)).
  { unfold loop, loop_init. rewrite !fold_loop_body_components.
    reflexivity. }
  split; [exact Hcount|].
  rewrite <- Hcount. subst second alone.
  rewrite !computeMean__minValue, !computeMean__maxValue, computeMean__mean,
    computeMean__numGoodPixels, Hloop.
  repeat split.
Qed.

(** ** The extremes are copies *)

Lemma fold_runningMin_copy {D : Type} `{Double D} (xs : list D) (t : D) :
  fold_left runningMin xs t = t \/ In (fold_left runningMin xs t) xs.
Proof.
  revert t. induction xs as [|x xs IH]; intros t; cbn [fold_left];
    [now left|].
  destruct (IH (runningMin t x)) as [Heq|Hin]; [|right; now right].
  rewrite Heq. unfold runningMin. destruct (d_lt x t).
  - right. now left.
  - now left.
Qed.

Lemma fold_runningMax_copy {D : Type} `{Double D} (xs : list D) (t : D) :
  fold_left runningMax xs t = t \/ In (fold_left runningMax xs t) xs.
Proof.
  revert t. induction xs as [|x xs IH]; intros t; cbn [fold_left];
    [now left|].
  destruct (IH (runningMax t x)) as [Heq|Hin]; [|right; now right].
  rewrite Heq. unfold runningMax. destruct (d_lt t x).
  - right. now left.
  - now left.
Qed.

(** Whatever the arithmetic, no arithmetic is done on the extremes: the
    returned minimum is the value [clipmax] itself or the value of an
    accepted cell, the returned maximum is [clipmin] itself or the value
    of an accepted cell, and the accepted cells are cells of the
    buffer. *)
Theorem extremes_are_cells_or_seeds (D : Type) (HD : Double D)
        (m : memory D) (nelements : Z) (clipmin clipmax : D) :
  let out := snd (computeMean_ m nelements clipmin clipmax) in
  let kept := accepted m nelements clipmin clipmax in
  (minValue out = clipmax \/ In (minValue out) kept)
  /\ (maxValue out = clipmin \/ In (maxValue out) kept)
  /\ (forall x, In x kept -> In x (image m)).
Proof.
  intros out kept. subst out kept.
  rewrite minValue_fold, maxValue_fold.
  split; [apply fold_runningMin_copy|]. split; [apply fold_runningMax_copy|].
  intros x Hx. unfold accepted, pixels in Hx. apply filter_In in Hx.
  destruct Hx as [Hx _].
  rewrite <- (firstn_skipn (Z.to_nat nelements) (image m)).
  apply in_or_app. now left.
Qed.

(** ** Bounds that are not numbers, wider bounds, the extremes as bounds *)

Section ClipRanges.

Context {D : Type} {HD : Double D} {HO : DoubleOrder D}.
Local Open Scope double_scope.

(** A value passes the test only between two numbers. *)
Lemma in_clip_bounds_numbers (clipmin clipmax x : D) :
  in_clip clipmin clipmax x = true -> d_number clipmin /\ d_number clipmax.
Proof.
  intros Hx. apply in_clip_bounds in Hx. destruct Hx as [Hlo Hhi]. split.
  - eapply d_le_number_l, Hlo.
  - eapply d_le_number_r, Hhi.
Qed.

(** What passes a range passes every range around it. *)
Lemma in_clip_wider (lo hi lo' hi' x : D) :
  (lo' <=? lo) = true -> (hi <=? hi') = true ->
  in_clip lo hi x = true -> in_clip lo' hi' x = true.
Proof.
  intros Hlo Hhi Hx. apply in_clip_bounds in Hx. destruct Hx as [Hx_lo Hx_hi].
  unfold in_clip. apply andb_true_iff. split.
  - now apply d_le_trans with lo.
  - now apply d_le_trans with hi.
Qed.

End ClipRanges.

(** In any ordered arithmetic, binary64 included, a clip bound that is
    NaN rejects everything: no value passes the test, no pixel is
    accepted, and the routine leaves the count as it was and returns
    [clipmax] as the minimum and [clipmin] as the maximum. *)
Theorem nan_bound_rejects_everything
        (D : Type) (HD : Double D) (HO : DoubleOrder D)
        (m : memory D) (nelements : Z) (clipmin clipmax : D) :
  ~ d_number clipmin \/ ~ d_number clipmax ->
  let out := snd (computeMean_ m nelements clipmin clipmax) in
  (forall x : D, in_clip clipmin clipmax x = false)
  /\ accepted m nelements clipmin clipmax = []
  /\ numGoodPixels out = numGoodPixels m
  /\ minValue out = clipmax
  /\ maxValue out = clipmin.
Proof.
  intros Hnan out.
  assert (Hrej : forall x : D, in_clip clipmin clipmax x = false).
  { intros x. destruct (in_clip clipmin clipmax x) eqn:Hx; [|reflexivity].
    apply in_clip_bounds_numbers in Hx. tauto. }
  assert (Hnone : accepted m nelements clipmin clipmax = []).
  { apply filter_none. intros x _. apply Hrej. }
  destruct (nothing_accepted_outputs _ _ _ _ Hnone) as (Hmin & Hmax & Hcnt).
  subst out. repeat split; trivial.
Qed.

(** The pixels 1, 2 with the bounds NaN and 5, in binary64. *)
Lemma nan_bound_rejects_everything_witness :
  minValue (snd (computeMean_ (zeroed [1; 2]%float) 2 nan 5%float)) = 5%float
  /\ maxValue (snd (computeMean_ (zeroed [1; 2]%float) 2 nan 5%float)) = nan.
Proof.
  assert (Hnan : ~ d_number nan \/ ~ d_number 5%float).
  { left. unfold d_number. vm_compute. discriminate. }
  pose proof (@nan_bound_rejects_everything
                float _ _ (zeroed [1; 2]%float) 2 nan 5%float Hnan) as Hc.
  cbv zeta in Hc. split; apply Hc.
Defined.

(** In any ordered arithmetic, widening the clip range ([lo' <= lo] and
    [hi <= hi']) keeps every accepted pixel accepted: from a zero count
    the returned count does not decrease, and if the narrow range
    accepted a pixel the minimum does not increase and the maximum does
    not decrease. *)
Theorem wider_range_accepts_more
        (D : Type) (HD : Double D) (HO : DoubleOrder D)
        (m : memory D) (nelements : Z) (lo hi lo' hi' : D) :
  (lo' <=? lo)%D = true ->
  (hi <=? hi')%D = true ->
  let out := snd (computeMean_ m nelements lo hi) in
  let out' := snd (computeMean_ m nelements lo' hi') in
  (forall x, In x (accepted m nelements lo hi) ->
             In x (accepted m nelements lo' hi'))
  /\ (numGoodPixels m = 0%Z -> Int.is_int nelements ->
      (numGoodPixels out <= numGoodPixels out')%Z)
  /\ (accepted m nelements lo hi <> [] ->
      (minValue out' <=? minValue out)%D = true
      /\ (maxValue out <=? maxValue out')%D = true).
Proof.
  intros Hlo Hhi out out'. subst out out'.
  assert (Hincl : forall x, In x (accepted m nelements lo hi) ->
                            In x (accepted m nelements lo' hi')).
  { intros x Hx. unfold accepted in *. apply filter_In in Hx.
    destruct Hx as [Hpix Hx]. apply filter_In. split; [exact Hpix|].
    now apply in_clip_wider with lo hi. }
  split; [exact Hincl|]. split.
  - intros H0 Hn. rewrite !computeMean__numGoodPixels.
    rewrite !(loop_count_from_zero _ _ _ H0 Hn). apply inj_le.
    unfold accepted. apply filter_length_implied.
    intros x _. now apply in_clip_wider.
  - intros Hne.
    assert (Hne' : accepted m nelements lo' hi' <> []).
    { destruct (accepted m nelements lo hi) as [|a rest] eqn:Hk;
        [congruence|].
      intros Hnil. specialize (Hincl a (or_introl eq_refl)).
      now rewrite Hnil in Hincl. }
    destruct (minValue_least m nelements lo' hi' Hne') as (_ & Hmin' & _).
    destruct (maxValue_greatest m nelements lo' hi' Hne') as (_ & Hmax' & _).
    destruct (minValue_occurs m nelements lo hi Hne) as (a & Ha & _ & Ha_min).
    destruct (maxValue_occurs m nelements lo hi Hne) as (b & Hb & Hmax_b & _).
    split.
    + apply d_le_trans with a; [|exact Ha_min]. apply Hmin', Hincl, Ha.
    + apply d_le_trans with b; [exact Hmax_b|]. apply Hmax', Hincl, Hb.
Qed.

(** The pixels 1, 2, 3 clipped to [[2, 2]] and to [[1, 3]], in binary64. *)
Lemma wider_range_accepts_more_witness :
  (numGoodPixels (snd (computeMean_ (zeroed [1; 2; 3]%float) 3
                                    2%float 2%float))
   <= numGoodPixels (snd (computeMean_ (zeroed [1; 2; 3]%float) 3
                                       1%float 3%float)))%Z.
Proof.
  assert (Hlo : (1 <=? 2)%float = true) by reflexivity.
  assert (Hhi : (2 <=? 3)%float = true) by reflexivity.
  pose proof (@wider_range_accepts_more
                float _ _ (zeroed [1; 2; 3]%float) 3
                2%float 2%float 1%float 3%float Hlo Hhi) as Hc.
  cbv zeta in Hc. apply Hc.
  - reflexivity.
  - unfold Int.is_int, Int.INT_MIN, Int.INT_MAX. lia.
Defined.

(** In any ordered arithmetic, binary64 and its rounding included: if a
    pixel is accepted, a second call of the routine on the same buffer
    with the returned minimum and maximum as clip bounds accepts the same
    pixels in the same order.  It increments the count it finds once per
    accepted pixel, returns a minimum and a maximum that are the same
    numbers as before, and as mean the same sum over the count it
    reaches.  So if the count location holds at the second call what it
    held at the first (zero both times, say), the count, the mean and the
    standard deviation are those of the first call.  Made on the memory
    that the first call leaves, where the count was not reset, the second
    call ends with the count on entry to the first call plus twice the
    number of accepted pixels. *)
Theorem reclipping_to_extremes
        (D : Type) (HD : Double D) (HO : DoubleOrder D)
        (m : memory D) (nelements : Z) (clipmin clipmax : D) :
  accepted m nelements clipmin clipmax <> [] ->
  let out := snd (computeMean_ m nelements clipmin clipmax) in
  let kept := accepted m nelements clipmin clipmax in
  (forall m' : memory D,
      image m' = image m ->
      let again := snd (computeMean_ m' nelements
                                     (minValue out) (maxValue out)) in
      accepted m' nelements (minValue out) (maxValue out) = kept
      /\ numGoodPixels again
         = Nat.iter (length kept) (fun n => Int.add n 1) (numGoodPixels m')
      /\ same_number (minValue again) (minValue out)
      /\ same_number (maxValue again) (maxValue out)
      /\ mean again
         = (sum (snd (loop m nelements clipmin clipmax))
            / d_of_int (numGoodPixels again))%D
      /\ (numGoodPixels m' = numGoodPixels m ->
          numGoodPixels again = numGoodPixels out
          /\ mean again = mean out
          /\ stddev again = stddev out))
  /\ (let again := snd (computeMean_ out nelements
                                     (minValue out) (maxValue out)) in
      numGoodPixels again
      = Nat.iter (length kept) (fun n => Int.add n 1) (numGoodPixels out)
      /\ (Int.is_int (numGoodPixels m) ->
          numGoodPixels again
          = Int.wrap (numGoodPixels m + 2 * Z.of_nat (length kept))%Z)).
Proof.
  intros Hne out kept.
  destruct (minValue_least m nelements clipmin clipmax Hne)
    as (Hmin_num & Hmin_le & _).
  destruct (maxValue_greatest m nelements clipmin clipmax Hne)
    as (Hmax_num & Hmax_le & _).
  destruct (minValue_occurs m nelements clipmin clipmax Hne)
    as (a & Ha & Hmin_a & Ha_min).
  destruct (maxValue_occurs m nelements clipmin clipmax Hne)
    as (b & Hb & Hmax_b & Hb_max).
  destruct (kept_between m nelements clipmin clipmax a Ha) as [Ha_lo _].
  destruct (kept_between m nelements clipmin clipmax b Hb) as [_ Hb_hi].
  pose proof (computeMean__image m nelements clipmin clipmax) as Himage.
  pose proof (computeMean__numGoodPixels m nelements clipmin clipmax)
    as Hout_count.
  pose proof (loop_count m nelements clipmin clipmax) as Hfirst.
  pose proof (computeMean__mean m nelements clipmin clipmax) as Hout_mean.
  pose proof (computeMean__stddev m nelements clipmin clipmax) as Hout_stddev.
  fold out in Hmin_num, Hmin_le, Hmax_num, Hmax_le, Hmin_a, Ha_min,
    Hmax_b, Hb_max, Himage, Hout_count, Hout_mean, Hout_stddev.
  fold kept in Hmin_le, Hmax_le, Ha, Hb, Hfirst.
  set (lo2 := minValue out) in *. set (hi2 := maxValue out) in *.
  assert (Hevery :
            forall m' : memory D,
              image m' = image m ->
              accepted m' nelements lo2 hi2 = kept).
  { intros m' Himg. unfold kept, accepted. rewrite Himg.
    apply filter_ext_in. intros x Hx.
    destruct (in_clip clipmin clipmax x) eqn:Hclip.
    - assert (Hin : In x kept).
      { unfold kept, accepted. apply filter_In. now split. }
      unfold in_clip. apply andb_true_iff. split.
      + now apply Hmin_le.
      + now apply Hmax_le.
    - destruct (in_clip lo2 hi2 x) eqn:Hnew; [|reflexivity].
      rewrite <- Hclip. symmetry.
      apply in_clip_wider with lo2 hi2; trivial.
      + now apply d_le_trans with a.
      + now apply d_le_trans with b. }
  assert (Hnum : Forall d_number kept) by apply accepted_numbers.
  assert (Hsecond :
            forall m' : memory D,
              image m' = image m ->
              loop m' nelements lo2 hi2
              = (Nat.iter (length kept) (fun n => Int.add n 1)
                          (numGoodPixels m'),
                 {| tmpMinValue := fold_left runningMin kept hi2;
                    tmpMaxValue := fold_left runningMax kept lo2;
                    sum := sum (snd (loop m nelements clipmin clipmax));
                    sumsq := sumsq (snd (loop m nelements clipmin clipmax))
                 |})).
  { intros m' Himg. pose proof (Hevery m' Himg) as Hk.
    unfold loop, loop_init. rewrite !fold_loop_body_components.
    cbn [fst snd tmpMinValue tmpMaxValue sum sumsq].
    fold (accepted m' nelements lo2 hi2).
    fold (accepted m nelements clipmin clipmax). fold kept.
    now rewrite Hk. }
  split.
  - intros m' Himg again. subst again.
    pose proof (Hsecond m' Himg) as Hloop.
    rewrite computeMean__numGoodPixels, computeMean__minValue,
      computeMean__maxValue, computeMean__mean, computeMean__stddev,
      computeMean__mean, Hloop.
    cbn [fst snd tmpMinValue tmpMaxValue sum sumsq].
    split; [now apply Hevery|]. split; [reflexivity|].
    destruct (fold_runningMin Hmax_num Hnum) as (_ & _ & Hall & Hsel).
    destruct (fold_runningMax Hmin_num Hnum) as (_ & _ & Hall' & Hsel').
    rewrite Forall_forall in Hall, Hall'.
    split; [|split; [|split; [reflexivity|]]].
    + split.
      * apply d_le_trans with a; [now apply Hall | exact Ha_min].
      * destruct Hsel as [->|Hin]; [|now apply Hmin_le].
        apply d_le_trans with a; [exact Hmin_a | now apply Hmax_le].
    + split.
      * destruct Hsel' as [->|Hin]; [|now apply Hmax_le].
        apply d_le_trans with a; [exact Hmin_a | now apply Hmax_le].
      * apply d_le_trans with b; [exact Hmax_b | now apply Hall'].
    + intros Hsame. rewrite Hsame, <- Hfirst.
      rewrite Hout_mean in Hout_stddev.
      rewrite Hout_stddev, Hout_mean, Hout_count.
      unfold stddev_numerator. cbn [sum sumsq]. repeat split.
  - intros again. subst again.
    rewrite computeMean__numGoodPixels, (Hsecond out Himage).
    cbn [fst]. split; [reflexivity|].
    intros Hentry. rewrite Hout_count, Hfirst.
    rewrite <- Nat.iter_add.
    rewrite IntFacts.increments by exact Hentry. f_equal. lia.
Qed.

(** The pixels 1, 2, 3 clipped to [[0, 9]] and then to the returned
    extremes, in binary64. *)
Lemma reclipping_to_extremes_witness :
  let out := snd (computeMean_ (zeroed [1; 2; 3]%float) 3 0%float 9%float) in
  accepted (zeroed [1; 2; 3]%float) 3 (minValue out) (maxValue out)
  = accepted (zeroed [1; 2; 3]%float) 3 0%float 9%float.
Proof.
  assert (Hne : accepted (zeroed [1; 2; 3]%float) 3 0%float 9%float <> []).
  { vm_compute. discriminate. }
  pose proof (@reclipping_to_extremes
                float _ _ (zeroed [1; 2; 3]%float) 3 0%float 9%float Hne)
    as Hc.
  cbv zeta in Hc. cbv zeta.
  exact (proj1 (proj1 Hc (zeroed [1; 2; 3]%float) eq_refl)).
Defined.

(** ** Sums of real samples *)

Module RealSums.

Import Reference.
Local Open Scope R_scope.

Lemma size_cons (x : R) (xs : list R) : size (x :: xs) = size xs + 1.
Proof.
  unfold size. change (length (x :: xs)) with (S (length xs)).
  now rewrite S_INR.
Qed.

Lemma size_map (f : R -> R) (xs : list R) : size (map f xs) = size xs.
Proof. unfold size. now rewrite length_map. Qed.

Lemma size_app (xs ys : list R) : size (xs ++ ys) = size xs + size ys.
Proof. unfold size. now rewrite length_app, plus_INR. Qed.

Lemma size_positive (x : R) (xs : list R) : 0 < size (x :: xs).
Proof.
  rewrite size_cons. pose proof (pos_INR (length xs)). unfold size. lra.
Qed.

Lemma total_app (xs ys : list R) : total (xs ++ ys) = total xs + total ys.
Proof.
  induction xs as [|x xs IH]; cbn [app].
  - unfold total at 2. cbn. lra.
  - rewrite !VarianceFacts.total_cons, IH. lra.
Qed.

(** A sum of samples that are all above [c] is above [n * c]; likewise
    below. *)
Lemma total_lower (c : R) (xs : list R) :
  (forall x, In x xs -> c <= x) -> size xs * c <= total xs.
Proof.
  induction xs as [|x xs IH]; intros Hall.
  - unfold size. cbn. lra.
  - rewrite size_cons, VarianceFacts.total_cons.
    assert (Hx : c <= x) by (apply Hall; now left).
    assert (Hxs : size xs * c <= total xs).
    { apply IH. intros y Hy. apply Hall. now right. }
    lra.
Qed.

Lemma total_upper (c : R) (xs : list R) :
  (forall x, In x xs -> x <= c) -> total xs <= size xs * c.
Proof.
  induction xs as [|x xs IH]; intros Hall.
  - unfold size. cbn. lra.
  - rewrite size_cons, VarianceFacts.total_cons.
    assert (Hx : x <= c) by (apply Hall; now left).
    assert (Hxs : total xs <= size xs * c).
    { apply IH. intros y Hy. apply Hall. now right. }
    lra.
Qed.

(** The mean of samples of an interval is in the interval. *)
Lemma sample_mean_between (lo hi : R) (xs : list R) :
  0 < size xs ->
  (forall x, In x xs -> lo <= x <= hi) ->
  lo <= sample_mean xs <= hi.
Proof.
  intros Hn Hall. unfold sample_mean.
  assert (Hlo : size xs * lo <= total xs).
  { apply total_lower. intros x Hx. now apply Hall. }
  assert (Hhi : total xs <= size xs * hi).
  { apply total_upper. intros x Hx. now apply Hall. }
  split.
  - apply Rmult_le_reg_l with (size xs); [exact Hn|].
    replace (size xs * (total xs / size xs)) with (total xs) by (field; lra).
    exact Hlo.
  - apply Rmult_le_reg_l with (size xs); [exact Hn|].
    replace (size xs * (total xs / size xs)) with (total xs) by (field; lra).
    exact Hhi.
Qed.

(** A sum of squares is zero only if every term is. *)
Lemma total_squares_zero (c : R) (xs : list R) :
  total (map (fun x => (x - c) * (x - c)) xs) = 0 ->
  forall x, In x xs -> x = c.
Proof.
  induction xs as [|y ys IH]; intros Hsum x Hx; [contradiction|].
  cbn [map] in Hsum. rewrite VarianceFacts.total_cons in Hsum.
  pose proof (VarianceFacts.total_deviations_nonneg c ys) as Hrest.
  pose proof (Rle_0_sqr (y - c)) as Hsq. unfold Rsqr in Hsq.
  destruct Hx as [<-|Hx].
  - assert (Hy : (y - c) * (y - c) = 0) by lra.
    apply Rmult_integral in Hy. lra.
  - apply IH; [lra | exact Hx].
Qed.

Lemma total_constant (c : R) (xs : list R) :
  (forall x, In x xs -> x = c) -> total xs = size xs * c.
Proof.
  induction xs as [|y ys IH]; intros Hall.
  - unfold size. cbn. lra.
  - rewrite size_cons, VarianceFacts.total_cons.
    rewrite (Hall y) by now left.
    rewrite IH; [lra|]. intros x Hx. apply Hall. now right.
Qed.

Lemma total_squares_constant (c : R) (xs : list R) :
  (forall x, In x xs -> x = c) ->
  total (map (fun x => (x - c) * (x - c)) xs) = 0.
Proof.
  induction xs as [|y ys IH]; intros Hall; [reflexivity|].
  cbn [map]. rewrite VarianceFacts.total_cons.
  rewrite (Hall y) at 1 2 by now left.
  rewrite IH; [lra|]. intros x Hx. apply Hall. now right.
Qed.

(** The sample variance of two samples or more is zero exactly when all
    the samples are equal. *)
Lemma sample_variance_zero (xs : list R) :
  1 < size xs ->
  (sample_variance xs = 0 <-> forall x y, In x xs -> In y xs -> x = y).
Proof.
  intros Hn. unfold sample_variance. split.
  - intros Hvar x y Hx Hy.
    assert (Hsum : total (map (fun x => (x - sample_mean xs)
                                        * (x - sample_mean xs)) xs) = 0).
    { apply Rmult_eq_reg_r with (/ (size xs - 1)).
      - rewrite Rmult_0_l. exact Hvar.
      - apply Rinv_neq_0_compat. lra. }
    rewrite (@total_squares_zero _ _ Hsum x Hx).
    now rewrite (@total_squares_zero _ _ Hsum y Hy).
  - intros Hsame. destruct xs as [|c rest] eqn:Hxs.
    { unfold size in Hn. cbn in Hn. lra. }
    rewrite <- Hxs in *.
    assert (Hall : forall x, In x xs -> x = c).
    { intros x Hx. apply Hsame; [exact Hx|]. rewrite Hxs. now left. }
    assert (Hmean : sample_mean xs = c).
    { unfold sample_mean. rewrite (@total_constant c xs Hall). field. lra. }
    rewrite Hmean, (@total_squares_constant c xs Hall). unfold Rdiv. ring.
Qed.

(** The mean of two parts, from their means and sizes. *)
Lemma sample_mean_app (xs ys : list R) :
  0 < size xs -> 0 < size ys ->
  sample_mean (xs ++ ys)
  = (size xs * sample_mean xs + size ys * sample_mean ys)
    / (size xs + size ys).
Proof.
  intros Hx Hy. unfold sample_mean. rewrite total_app, size_app. field. lra.
Qed.

(** The sum of the squares, from the count, the mean and the variance. *)
Lemma squares_from_statistics (xs : list R) :
  1 < size xs ->
  (size xs - 1) * sample_variance xs
  + size xs * (sample_mean xs * sample_mean xs)
  = total (map (fun x => x * x) xs).
Proof.
  intros Hn. unfold sample_variance.
  rewrite VarianceFacts.shortcut by lra.
  unfold sample_mean. field. lra.
Qed.

(** The minimum and the maximum over two parts. *)
Lemma fold_Rmin_seed (xs : list R) (s t : R) :
  fold_left Rmin xs (Rmin s t) = Rmin s (fold_left Rmin xs t).
Proof.
  revert t. induction xs as [|x xs IH]; intros t; [reflexivity|].
  cbn [fold_left]. now rewrite <- Rmin_assoc, IH.
Qed.

Lemma fold_Rmax_seed (xs : list R) (s t : R) :
  fold_left Rmax xs (Rmax s t) = Rmax s (fold_left Rmax xs t).
Proof.
  revert t. induction xs as [|x xs IH]; intros t; [reflexivity|].
  cbn [fold_left]. now rewrite <- Rmax_assoc, IH.
Qed.

Lemma fold_Rmin_below_seed (xs : list R) (t : R) : fold_left Rmin xs t <= t.
Proof.
  revert t. induction xs as [|x xs IH]; intros t; cbn [fold_left]; [lra|].
  pose proof (IH (Rmin t x)). pose proof (Rmin_l t x). lra.
Qed.

Lemma fold_Rmax_above_seed (xs : list R) (t : R) : t <= fold_left Rmax xs t.
Proof.
  revert t. induction xs as [|x xs IH]; intros t; cbn [fold_left]; [lra|].
  pose proof (IH (Rmax t x)). pose proof (Rmax_l t x). lra.
Qed.

Lemma fold_Rmin_app (xs ys : list R) (t : R) :
  fold_left Rmin (xs ++ ys) t
  = Rmin (fold_left Rmin xs t) (fold_left Rmin ys t).
Proof.
  rewrite fold_left_app, <- fold_Rmin_seed. f_equal.
  symmetry. apply Rmin_left, fold_Rmin_below_seed.
Qed.

Lemma fold_Rmax_app (xs ys : list R) (t : R) :
  fold_left Rmax (xs ++ ys) t
  = Rmax (fold_left Rmax xs t) (fold_left Rmax ys t).
Proof.
  rewrite fold_left_app, <- fold_Rmax_seed. f_equal.
  symmetry. apply Rmax_left, fold_Rmax_above_seed.
Qed.

(** The samples mapped by [x => k * x + c] with [k] positive: a change of
    unit and of origin. *)
Section Affine.

Variables k c : R.
Hypothesis k_positive : 0 < k.

Local Notation "'f'" := (fun x : R => k * x + c).

Lemma Rleb_affine (a b : R) : Rleb (f a) (f b) = Rleb a b.
Proof.
  unfold Rleb. destruct (Rle_dec (f a) (f b)), (Rle_dec a b);
    try reflexivity; exfalso; cbv beta in *; nra.
Qed.

Lemma filter_affine (lo hi : R) (xs : list R) :
  filter (fun y => Rleb (f lo) y && Rleb y (f hi)) (map f xs)
  = map f (filter (fun x => Rleb lo x && Rleb x hi) xs).
Proof.
  induction xs as [|x xs IH]; [reflexivity|].
  cbn [map filter]. rewrite !Rleb_affine.
  destruct (Rleb lo x && Rleb x hi)%bool; cbn [map]; now rewrite IH.
Qed.

Lemma Rmin_affine (a b : R) : Rmin (f a) (f b) = f (Rmin a b).
Proof.
  unfold Rmin. destruct (Rle_dec (f a) (f b)), (Rle_dec a b);
    try reflexivity; exfalso; cbv beta in *; nra.
Qed.

Lemma Rmax_affine (a b : R) : Rmax (f a) (f b) = f (Rmax a b).
Proof.
  unfold Rmax. destruct (Rle_dec (f a) (f b)), (Rle_dec a b);
    try reflexivity; exfalso; cbv beta in *; nra.
Qed.

Lemma fold_Rmin_affine (xs : list R) (t : R) :
  fold_left Rmin (map f xs) (f t) = f (fold_left Rmin xs t).
Proof.
  revert t. induction xs as [|x xs IH]; intros t; [reflexivity|].
  cbn [map fold_left]. now rewrite Rmin_affine, IH.
Qed.

Lemma fold_Rmax_affine (xs : list R) (t : R) :
  fold_left Rmax (map f xs) (f t) = f (fold_left Rmax xs t).
Proof.
  revert t. induction xs as [|x xs IH]; intros t; [reflexivity|].
  cbn [map fold_left]. now rewrite Rmax_affine, IH.
Qed.

Lemma total_affine (xs : list R) :
  total (map f xs) = k * total xs + size xs * c.
Proof.
  induction xs as [|x xs IH].
  - unfold size. cbn. lra.
  - cbn [map]. rewrite !VarianceFacts.total_cons, size_cons, IH. lra.
Qed.

Lemma sample_mean_affine (xs : list R) :
  0 < size xs -> sample_mean (map f xs) = k * sample_mean xs + c.
Proof.
  intros Hn. unfold sample_mean. rewrite total_affine, size_map.
  field. lra.
Qed.

Lemma deviations_affine (mu : R) (xs : list R) :
  total (map (fun y => (y - f mu) * (y - f mu)) (map f xs))
  = k * k * total (map (fun x => (x - mu) * (x - mu)) xs).
Proof.
  induction xs as [|x xs IH].
  - cbn. lra.
  - cbn [map]. rewrite !VarianceFacts.total_cons, IH. ring.
Qed.

Lemma sample_variance_affine (xs : list R) :
  0 < size xs ->
  sample_variance (map f xs) = k * k * sample_variance xs.
Proof.
  intros Hn. unfold sample_variance.
  rewrite (@sample_mean_affine xs Hn), size_map.
  rewrite (deviations_affine (sample_mean xs) xs). unfold Rdiv. ring.
Qed.

Lemma sqrt_scaled (v : R) : 0 <= v -> sqrt (k * k * v) = k * sqrt v.
Proof.
  intros Hv. rewrite sqrt_mult; [|nra|exact Hv].
  now rewrite sqrt_square by lra.
Qed.

(** The mean and the standard deviation as the routine returns them,
    NaN below one and two samples. *)
Lemma mean_affine (xs : list R) :
  match map f xs with
  | [] => XNaN
  | _ :: _ => XFin (sample_mean (map f xs))
  end
  = xadd (xmul (XFin k) match xs with
                        | [] => XNaN
                        | _ :: _ => XFin (sample_mean xs)
                        end)
         (XFin c).
Proof.
  destruct xs as [|x rest]; [reflexivity|].
  rewrite (@sample_mean_affine (x :: rest) (size_positive x rest)).
  reflexivity.
Qed.

Lemma stddev_affine (xs : list R) :
  match map f xs with
  | [] | [_] => XNaN
  | _ :: _ :: _ => XFin (sqrt (sample_variance (map f xs)))
  end
  = xmul (XFin k) match xs with
                  | [] | [_] => XNaN
                  | _ :: _ :: _ => XFin (sqrt (sample_variance xs))
                  end.
Proof.
  destruct xs as [|x [|y rest]]; [reflexivity|reflexivity|].
  assert (Hn : 1 < size (x :: y :: rest)).
  { rewrite size_cons. pose proof (size_positive y rest). lra. }
  rewrite (@sample_variance_affine (x :: y :: rest)) by lra.
  rewrite sqrt_scaled by now apply VarianceFacts.sample_variance_nonneg.
  reflexivity.
Qed.

End Affine.

End RealSums.

(** ** The extremes of real pixels *)

Module ExactOrder.

Import Reference XrealFacts.
Local Open Scope R_scope.

Lemma xle_finite (a b : R) : xle (XFin a) (XFin b) = true <-> a <= b.
Proof. cbn [xle]. apply Rleb_true. Qed.

Lemma finite_value (x : xreal) : is_finite x -> x = XFin (to_R x).
Proof. destruct x; cbn; intros Hx; (reflexivity || contradiction). Qed.

Lemma in_map_to_R (xs : list xreal) (x : R) :
  Forall is_finite xs -> In x (map to_R xs) -> In (XFin x) xs.
Proof.
  intros Hfin Hx. apply in_map_iff in Hx. destruct Hx as (a & <- & Ha).
  rewrite Forall_forall in Hfin.
  now rewrite <- (@finite_value a (Hfin a Ha)).
Qed.

Section ExtremesOfRealPixels.

Variables (m : memory xreal) (nelements : Z) (clipmin clipmax : xreal).

Local Notation "'kept'" := (accepted m nelements clipmin clipmax).
Local Notation "'out'" := (snd (computeMean_ m nelements clipmin clipmax)).

Hypothesis real_pixels : Forall is_finite kept.
Hypothesis some_accepted : kept <> [].

(** The returned extremes are real numbers that bound every accepted
    pixel, and accepted pixels themselves. *)
Lemma extremes_real :
  exists lo hi : R,
    minValue out = XFin lo /\ maxValue out = XFin hi
    /\ In (XFin lo) kept /\ In (XFin hi) kept
    /\ forall x : R, In x (map to_R kept) -> lo <= x <= hi.
Proof.
  pose proof (minValue_in_kept m nelements clipmin clipmax
                               xreal_same_number_eq some_accepted) as Hmin.
  pose proof (maxValue_in_kept m nelements clipmin clipmax
                               xreal_same_number_eq some_accepted) as Hmax.
  destruct (minValue_least m nelements clipmin clipmax some_accepted)
    as (_ & Hleast & _).
  destruct (maxValue_greatest m nelements clipmin clipmax some_accepted)
    as (_ & Hgreatest & _).
  pose proof real_pixels as Hfin. rewrite Forall_forall in Hfin.
  pose proof (@finite_value _ (Hfin _ Hmin)) as Elo.
  pose proof (@finite_value _ (Hfin _ Hmax)) as Ehi.
  exists (to_R (minValue out)), (to_R (maxValue out)).
  split; [exact Elo|]. split; [exact Ehi|].
  split; [now rewrite <- Elo|]. split; [now rewrite <- Ehi|].
  intros x Hx. apply (@in_map_to_R _ _ real_pixels) in Hx. split.
  - apply xle_finite. rewrite <- Elo. now apply Hleast.
  - apply xle_finite. rewrite <- Ehi. now apply Hgreatest.
Qed.

End ExtremesOfRealPixels.

End ExactOrder.

(** In exact arithmetic, from a zero count on entry, with at least one
    accepted pixel and the accepted pixels real numbers: the returned
    mean lies between the returned minimum and the returned maximum, and
    so within the clip range. *)
Theorem mean_between_extremes
        (m : memory xreal) (nelements : Z) (clipmin clipmax : xreal) :
  numGoodPixels m = 0%Z ->
  Int.is_int nelements ->
  let out := snd (computeMean_ m nelements clipmin clipmax) in
  Forall is_finite (accepted m nelements clipmin clipmax) ->
  (numGoodPixels out >= 1)%Z ->
  (minValue out <=? mean out)%D = true
  /\ (mean out <=? maxValue out)%D = true
  /\ (clipmin <=? mean out)%D = true
  /\ (mean out <=? clipmax)%D = true.
Proof.
  intros H0 Hn out Hreal Hpos.
  assert (Hne : accepted m nelements clipmin clipmax <> [])
    by now apply positive_count.
  destruct (ExactOrder.extremes_real m nelements clipmin clipmax Hreal Hne)
    as (lo & hi & Hmin & Hmax & Hlo_in & Hhi_in & Hall).
  destruct (kept_between m nelements clipmin clipmax _ Hlo_in) as [Hclip_lo _].
  destruct (kept_between m nelements clipmin clipmax _ Hhi_in) as [_ Hclip_hi].
  fold out in Hmin, Hmax. subst out.
  rewrite computeMean__numGoodPixels in Hpos.
  rewrite computeMean__mean in *.
  rewrite (@ExactStatistics.mean_real m nelements clipmin clipmax
                                      Hreal H0 Hn Hpos).
  assert (Hsize : (0 < Reference.size
                         (map to_R (accepted m nelements clipmin clipmax)))%R).
  { rewrite <- (@ExactStatistics.count_real m nelements clipmin clipmax H0 Hn).
    apply IZR_lt. lia. }
  destruct (@RealSums.sample_mean_between lo hi _ Hsize Hall)
    as [Hmean_lo Hmean_hi].
  rewrite Hmin, Hmax.
  assert (Hlo : (XFin lo <=? XFin (Reference.sample_mean
           (map to_R (accepted m nelements clipmin clipmax))))%D = true)
    by now apply ExactOrder.xle_finite.
  assert (Hhi : (XFin (Reference.sample_mean
           (map to_R (accepted m nelements clipmin clipmax))) <=? XFin hi)%D
                = true)
    by now apply ExactOrder.xle_finite.
  split; [exact Hlo|]. split; [exact Hhi|]. split.
  - now apply d_le_trans with (XFin lo).
  - now apply d_le_trans with (XFin hi).
Qed.

(** The pixels 1, ..., 5 clipped to [[2, 4]]. *)
Lemma mean_between_extremes_witness :
  (minValue (snd (computeMean_ ExactInputs.one_to_five 5 (XFin 2) (XFin 4)))
   <=? mean (snd (computeMean_ ExactInputs.one_to_five 5 (XFin 2) (XFin 4))))%D
  = true.
Proof.
  refine (proj1 (@mean_between_extremes ExactInputs.one_to_five 5
                                        (XFin 2) (XFin 4) _ _ _ _)).
  - reflexivity.
  - apply ExactRuns.five_is_int.
  - rewrite ExactRuns.accepted_two_to_four. repeat constructor.
  - rewrite ExactRuns.count_two_to_four. lia.
Defined.

(** In exact arithmetic, from a zero count on entry, with at least two
    accepted pixels, all real numbers: the returned standard deviation is
    a real number that is not negative, and it is zero exactly when all
    the accepted pixels are equal; the mean, the minimum and the maximum
    are then that common value. *)
Theorem stddev_zero_iff_constant
        (m : memory xreal) (nelements : Z) (clipmin clipmax : xreal) :
  numGoodPixels m = 0%Z ->
  Int.is_int nelements ->
  let out := snd (computeMean_ m nelements clipmin clipmax) in
  let kept := accepted m nelements clipmin clipmax in
  Forall is_finite kept ->
  (numGoodPixels out >= 2)%Z ->
  exists s : R,
    stddev out = XFin s
    /\ (0 <= s)%R
    /\ (s = 0%R <-> forall a b : xreal, In a kept -> In b kept -> a = b)
    /\ (s = 0%R ->
        forall a : xreal, In a kept ->
          mean out = a /\ minValue out = a /\ maxValue out = a).
Proof.
  intros H0 Hn out kept Hreal Htwo. subst out kept.
  rewrite computeMean__numGoodPixels in Htwo.
  set (kept := accepted m nelements clipmin clipmax) in *.
  set (xs := map to_R kept).
  assert (Hsize : (1 < Reference.size xs)%R).
  { unfold xs, kept.
    rewrite <- (@ExactStatistics.count_real m nelements clipmin clipmax H0 Hn).
    apply IZR_lt. lia. }
  pose proof (VarianceFacts.sample_variance_nonneg _ Hsize) as Hnonneg.
  pose proof Hreal as Hfin. rewrite Forall_forall in Hfin.
  assert (Hne : kept <> []).
  { intros Hnil. unfold xs in Hsize. rewrite Hnil in Hsize.
    unfold Reference.size in Hsize. cbn in Hsize. lra. }
  assert (Hzero : sqrt (Reference.sample_variance xs) = 0%R
                  <-> forall a b : xreal, In a kept -> In b kept -> a = b).
  { split.
    - intros Hs a b Ha Hb. apply sqrt_eq_0 in Hs; [|exact Hnonneg].
      rewrite (@ExactOrder.finite_value a (Hfin a Ha)).
      rewrite (@ExactOrder.finite_value b (Hfin b Hb)). f_equal.
      apply (proj1 (@RealSums.sample_variance_zero xs Hsize) Hs);
        unfold xs; now apply in_map.
    - intros Hsame.
      rewrite (proj2 (@RealSums.sample_variance_zero xs Hsize));
        [apply sqrt_0|].
      intros x y Hx Hy.
      apply (@ExactOrder.in_map_to_R _ _ Hreal) in Hx.
      apply (@ExactOrder.in_map_to_R _ _ Hreal) in Hy.
      specialize (Hsame _ _ Hx Hy). congruence. }
  exists (sqrt (Reference.sample_variance xs)).
  split.
  { now apply (@ExactStatistics.stddev_real m nelements clipmin clipmax
                                            Hreal H0 Hn). }
  split; [apply sqrt_pos|]. split; [exact Hzero|].
  intros Hs a Ha.
  pose proof (proj1 Hzero Hs) as Hsame.
  pose proof (minValue_in_kept m nelements clipmin clipmax
                XrealFacts.xreal_same_number_eq Hne) as Hmin.
  pose proof (maxValue_in_kept m nelements clipmin clipmax
                XrealFacts.xreal_same_number_eq Hne) as Hmax.
  split; [|split; apply Hsame; trivial].
  rewrite computeMean__mean.
  rewrite (@ExactStatistics.mean_real m nelements clipmin clipmax
                                      Hreal H0 Hn) by lia.
  rewrite (@ExactOrder.finite_value a (Hfin a Ha)). f_equal.
  fold kept. fold xs.
  assert (Hall : forall x : R, In x xs -> x = to_R a).
  { intros x Hx. apply (@ExactOrder.in_map_to_R _ _ Hreal) in Hx.
    now rewrite <- (Hsame _ _ Hx Ha). }
  unfold Reference.sample_mean.
  rewrite (@RealSums.total_constant (to_R a) xs Hall). field. lra.
Qed.

(** The pixels 1, ..., 5 clipped to [[2, 4]]. *)
Lemma stddev_zero_iff_constant_witness :
  exists s : R,
    stddev (snd (computeMean_ ExactInputs.one_to_five 5 (XFin 2) (XFin 4)))
    = XFin s
    /\ (0 <= s)%R.
Proof.
  destruct (@stddev_zero_iff_constant ExactInputs.one_to_five 5
                                      (XFin 2) (XFin 4))
    as (s & Hs & Hpos & _).
  - reflexivity.
  - apply ExactRuns.five_is_int.
  - rewrite ExactRuns.accepted_two_to_four. repeat constructor.
  - rewrite ExactRuns.count_two_to_four. lia.
  - exists s. now split.
Defined.

(** ** Real samples: closed form, change of unit, buffers in two parts *)

(** In exact arithmetic, called with a zero count and a length that is
    an [int] on a buffer of real samples with real clip bounds, the
    routine returns, for [kept] the samples read that lie in the closed
    interval [[lo, hi]], in buffer order: their number; their sample
    mean, or NaN if there is none; the square root of their unbiased
    sample variance, or NaN if there are fewer than two; their running
    minimum from [hi] ([hi] if there is none); their running maximum from
    [lo] ([lo] if there is none). *)
Theorem exact_results_on_reals
        (m : memory xreal) (samples : list R) (nelements : Z) (lo hi : R) :
  image m = map XFin samples ->
  numGoodPixels m = 0%Z ->
  Int.is_int nelements ->
  let kept := filter (fun x => Rleb lo x && Rleb x hi)
                     (firstn (Z.to_nat nelements) samples) in
  results (snd (computeMean_ m nelements (XFin lo) (XFin hi)))
  = (Z.of_nat (length kept),
     match kept with
     | [] => XNaN
     | _ :: _ => XFin (Reference.sample_mean kept)
     end,
     match kept with
     | [] | [_] => XNaN
     | _ :: _ :: _ => XFin (sqrt (Reference.sample_variance kept))
     end,
     XFin (fold_left Rmin kept hi),
     XFin (fold_left Rmax kept lo)).
Proof. intros Himg H0 Hn. now apply RealPass.call_results. Qed.

(** The samples 1, 5, 2 clipped to [[0, 3]]. *)
Lemma exact_results_on_reals_witness :
  numGoodPixels (snd (computeMean_ (zeroed (map XFin [1; 5; 2]%R)) 3
                                   (XFin 0) (XFin 3)))
  = Z.of_nat (length (filter (fun x => Rleb 0 x && Rleb x 3)
                             (firstn (Z.to_nat 3) [1; 5; 2]%R))).
Proof.
  pose proof (@exact_results_on_reals
                (zeroed (map XFin [1; 5; 2]%R)) [1; 5; 2]%R 3 0%R 3%R
                eq_refl eq_refl ExactRuns.three_is_int) as Hc.
  cbv zeta in Hc. unfold results in Hc. now inversion Hc.
Defined.

(** In exact arithmetic, a change of unit and of origin of the data goes
    through the routine, called with zeroed outputs on the whole buffer:
    with the samples and both clip bounds mapped by [x => k * x + c], [k]
    positive, the count is unchanged, the mean, the minimum and the
    maximum are mapped the same way, and the standard deviation is
    multiplied by [k] (NaN stays NaN). *)
Theorem affine_change_of_samples (samples : list R) (lo hi k c : R) :
  (PyArray_Size samples <= Int.INT_MAX)%Z ->
  (0 < k)%R ->
  let f := fun x : R => (k * x + c)%R in
  let run := fun (buffer : list R) (clipmin clipmax : R) =>
    snd (computeMean_ (zeroed (map XFin buffer)) (PyArray_Size buffer)
                      (XFin clipmin) (XFin clipmax)) in
  let r := run samples lo hi in
  let r' := run (map f samples) (f lo) (f hi) in
  numGoodPixels r' = numGoodPixels r
  /\ mean r' = (XFin k * mean r + XFin c)%D
  /\ stddev r' = (XFin k * stddev r)%D
  /\ minValue r' = (XFin k * minValue r + XFin c)%D
  /\ maxValue r' = (XFin k * maxValue r + XFin c)%D.
Proof.
  intros Hsize Hk f run r r'.
  assert (Hsize' : (PyArray_Size (map f samples) <= Int.INT_MAX)%Z).
  { unfold PyArray_Size in *. now rewrite length_map. }
  pose proof (RealPass.whole_results samples lo hi Hsize) as Hr.
  pose proof (RealPass.whole_results (map f samples) (f lo) (f hi) Hsize')
    as Hr'.
  cbv zeta in Hr, Hr'. fold (run samples lo hi) in Hr.
  fold (run (map f samples) (f lo) (f hi)) in Hr'. fold r in Hr.
  fold r' in Hr'.
  subst f. cbv beta in Hr'.
  rewrite (@RealSums.filter_affine k c Hk) in Hr'.
  rewrite (@RealSums.fold_Rmin_affine k c Hk),
    (@RealSums.fold_Rmax_affine k c Hk) in Hr'.
  unfold results in Hr, Hr'.
  injection Hr as Hn Hmean Hstddev Hmin Hmax.
  injection Hr' as Hn' Hmean' Hstddev' Hmin' Hmax'.
  rewrite Hn', Hmean', Hstddev', Hmin', Hmax', Hn, Hmean, Hstddev, Hmin, Hmax.
  cbn [d_mul d_add xreal_Double xmul xadd].
  split; [now rewrite length_map|].
  split; [apply (@RealSums.mean_affine k c)|].
  split; [apply (@RealSums.stddev_affine k c Hk)|].
  split; reflexivity.
Qed.

(** The samples 1, 2, 3 clipped to [[0, 9]], and their images by
    [x => 2 * x + 10]. *)
Lemma affine_change_of_samples_witness :
  numGoodPixels
    (snd (computeMean_
            (zeroed (map XFin (map (fun x => 2 * x + 10) [1; 2; 3])%R))
            (PyArray_Size (map (fun x => 2 * x + 10) [1; 2; 3])%R)
            (XFin (2 * 0 + 10)) (XFin (2 * 9 + 10))))
  = numGoodPixels
      (snd (computeMean_ (zeroed (map XFin [1; 2; 3]%R))
                         (PyArray_Size [1; 2; 3]%R) (XFin 0) (XFin 9))).
Proof.
  refine (proj1 (@affine_change_of_samples [1; 2; 3]%R 0%R 9%R 2%R 10%R _ _)).
  - unfold PyArray_Size, Int.INT_MAX. cbn [length]. lia.
  - lra.
Defined.

(** In exact arithmetic, the results of the routine, called with zeroed
    outputs on a whole buffer, on a buffer in two parts [a] and [b]
    follow from its results on each part: the count is the sum of the two
    counts, the minimum and the maximum are the minimum of the two minima
    and the maximum of the two maxima; if each part has an accepted
    sample the mean is the mean of the two means weighted by the counts;
    if each part has two or more, the sum of squares recovered from the
    count, the mean and the standard deviation,
    [(n - 1) * stddev^2 + n * mean^2], is the sum of those of the two
    parts. *)
Theorem results_of_two_parts (a b : list R) (lo hi : R) :
  (PyArray_Size (a ++ b) <= Int.INT_MAX)%Z ->
  let run := fun buffer : list R =>
    snd (computeMean_ (zeroed (map XFin buffer)) (PyArray_Size buffer)
                      (XFin lo) (XFin hi)) in
  let ra := run a in
  let rb := run b in
  let r := run (a ++ b) in
  let na := numGoodPixels ra in
  let nb := numGoodPixels rb in
  let squares := fun t : memory xreal =>
    (d_of_int (numGoodPixels t - 1) * (stddev t * stddev t)
     + d_of_int (numGoodPixels t) * (mean t * mean t))%D in
  numGoodPixels r = (na + nb)%Z
  /\ minValue r = runningMin (minValue ra) (minValue rb)
  /\ maxValue r = runningMax (maxValue ra) (maxValue rb)
  /\ ((na >= 1)%Z -> (nb >= 1)%Z ->
      mean r
      = ((d_of_int na * mean ra + d_of_int nb * mean rb)
         / d_of_int (na + nb))%D)
  /\ ((na >= 2)%Z -> (nb >= 2)%Z ->
      squares r = (squares ra + squares rb)%D).
Proof.
  intros Hsize run ra rb r na nb squares.
  assert (Hsizes : (PyArray_Size a <= Int.INT_MAX
                    /\ PyArray_Size b <= Int.INT_MAX)%Z).
  { unfold PyArray_Size in *. rewrite length_app in Hsize. lia. }
  destruct Hsizes as [Hsize_a Hsize_b].
  pose proof (RealPass.whole_results a lo hi Hsize_a) as Hra.
  pose proof (RealPass.whole_results b lo hi Hsize_b) as Hrb.
  pose proof (RealPass.whole_results (a ++ b) lo hi Hsize) as Hr.
  cbv zeta in Hra, Hrb, Hr.
  fold (run a) in Hra. fold (run b) in Hrb. fold (run (a ++ b)) in Hr.
  fold ra in Hra. fold rb in Hrb. fold r in Hr.
  rewrite filter_app in Hr.
  set (ka := filter (fun x => Rleb lo x && Rleb x hi) a) in *.
  set (kb := filter (fun x => Rleb lo x && Rleb x hi) b) in *.
  unfold results in Hra, Hrb, Hr.
  injection Hra as Hna Hmean_a Hstddev_a Hmin_a Hmax_a.
  injection Hrb as Hnb Hmean_b Hstddev_b Hmin_b Hmax_b.
  injection Hr as Hn Hmean Hstddev Hmin Hmax.
  subst squares na nb. cbv beta.
  rewrite Hn, Hmean, Hstddev, Hmin, Hmax, Hna, Hmean_a, Hstddev_a, Hmin_a,
    Hmax_a, Hnb, Hmean_b, Hstddev_b, Hmin_b, Hmax_b.
  split; [rewrite length_app; lia|].
  split; [now rewrite RealSums.fold_Rmin_app, RealPass.runningMin_Rmin|].
  split; [now rewrite RealSums.fold_Rmax_app, RealPass.runningMax_Rmax|].
  split.
  - intros Ha Hb.
    destruct ka as [|x xs] eqn:Hka; [cbn [length] in Ha; lia|].
    destruct kb as [|y ys] eqn:Hkb; [cbn [length] in Hb; lia|].
    rewrite <- Hka, <- Hkb.
    assert (Hpos_a : (0 < Reference.size ka)%R)
      by (rewrite Hka; apply RealSums.size_positive).
    assert (Hpos_b : (0 < Reference.size kb)%R)
      by (rewrite Hkb; apply RealSums.size_positive).
    replace (ka ++ kb) with ((x :: xs) ++ kb) by now rewrite Hka.
    cbn [app]. replace (x :: xs ++ kb) with (ka ++ kb) by now rewrite Hka.
    rewrite (@RealSums.sample_mean_app ka kb Hpos_a Hpos_b).
    cbn [d_of_int d_mul d_add d_div xreal_Double xmul xadd xdiv].
    rewrite plus_IZR, <- !VarianceFacts.size_of_nat.
    destruct (Req_dec_T (Reference.size ka + Reference.size kb) 0)
      as [Hz|_]; [exfalso; lra | reflexivity].
  - intros Ha Hb.
    destruct ka as [|x [|x' xs]] eqn:Hka; try (cbn [length] in Ha; lia).
    destruct kb as [|y [|y' ys]] eqn:Hkb; try (cbn [length] in Hb; lia).
    rewrite <- Hka, <- Hkb.
    assert (Hpos_a : (1 < Reference.size ka)%R).
    { rewrite Hka, RealSums.size_cons.
      pose proof (RealSums.size_positive x' xs). lra. }
    assert (Hpos_b : (1 < Reference.size kb)%R).
    { rewrite Hkb, RealSums.size_cons.
      pose proof (RealSums.size_positive y' ys). lra. }
    assert (Hpos : (1 < Reference.size (ka ++ kb))%R).
    { rewrite RealSums.size_app. lra. }
    replace (ka ++ kb) with ((x :: x' :: xs) ++ kb) by now rewrite Hka.
    cbn [app].
    replace (x :: x' :: xs ++ kb) with (ka ++ kb) by now rewrite Hka.
    cbn [d_of_int d_mul d_add xreal_Double xmul xadd].
    rewrite !minus_IZR, <- !VarianceFacts.size_of_nat.
    rewrite !sqrt_sqrt
      by (apply VarianceFacts.sample_variance_nonneg; assumption).
    rewrite !RealSums.squares_from_statistics by assumption.
    now rewrite map_app, RealSums.total_app.
Qed.

(** The buffer 1, 2, 3 as 1, 2 followed by 3, clipped to [[0, 9]]. *)
Lemma results_of_two_parts_witness :
  numGoodPixels
    (snd (computeMean_ (zeroed (map XFin ([1; 2] ++ [3])%R))
                       (PyArray_Size ([1; 2] ++ [3])%R) (XFin 0) (XFin 9)))
  = (numGoodPixels
       (snd (computeMean_ (zeroed (map XFin [1; 2]%R))
                          (PyArray_Size [1; 2]%R) (XFin 0) (XFin 9)))
     + numGoodPixels
         (snd (computeMean_ (zeroed (map XFin [3]%R))
                            (PyArray_Size [3]%R) (XFin 0) (XFin 9))))%Z.
Proof.
  refine (proj1 (@results_of_two_parts [1; 2]%R [3]%R 0%R 9%R _)).
  unfold PyArray_Size, Int.INT_MAX. cbn [length app]. lia.
Defined.

(** ** Binary64: signs and special values *)

Module Binary64Special.

Import Binary64Values.

(** Rounding keeps the sign it is given. *)
Lemma round_sign (sx : bool) (mx ex : Z) (lx : location) :
  signed_or_nan sx (binary_round_aux prec emax sx mx ex lx).
Proof.
  unfold binary_round_aux.
  destruct (shr_fexp prec emax mx ex lx) as [mrs' e'].
  destruct (shr_fexp prec emax _ e' loc_Exact) as [mrs'' e''].
  destruct (shr_m mrs'') as [|p|p]; [reflexivity| |exact I].
  destruct (e'' <=? emax - prec)%Z; reflexivity.
Qed.

Lemma normalize_sign (m e : Z) :
  (0 <= m)%Z -> signed_or_nan false (binary_normalize prec emax m e false).
Proof.
  intros Hm. unfold binary_normalize. destruct m as [|p|p]; [reflexivity| |lia].
  unfold binary_round. destruct (shl_align _ _ _) as [mz ez].
  apply round_sign.
Qed.

(** The conversion of an [int] that is not negative is not negative. *)
Lemma float_of_int_sign (n : Z) :
  (0 <= n)%Z -> signed_or_nan false (Prim2SF (float_of_int n)).
Proof.
  intros Hn. unfold float_of_int.
  destruct (n <? 0)%Z eqn:Hneg; [apply Z.ltb_lt in Hneg; lia|].
  rewrite of_uint63_spec. apply normalize_sign.
  apply Uint63.to_Z_bounded.
Qed.

(** Once infinite or NaN, a sum stays so. *)
Lemma add_infinite_l (x y : spec_float) :
  infinite_or_nan x -> infinite_or_nan (SF64add x y).
Proof. destruct x as [| [|] | |], y as [| [|] | |]; cbn; tauto. Qed.

Lemma add_infinite_r (x y : spec_float) :
  infinite_or_nan y -> infinite_or_nan (SF64add x y).
Proof. destruct x as [| [|] | |], y as [| [|] | |]; cbn; tauto. Qed.

Lemma add_plus_infinity_l (x y : spec_float) :
  plus_infinity_or_nan x -> plus_infinity_or_nan (SF64add x y).
Proof. destruct x as [| [|] | |], y as [| [|] | |]; cbn; tauto. Qed.

Lemma add_plus_infinity_r (x : spec_float) :
  plus_infinity_or_nan (SF64add x (S754_infinity false)).
Proof. destruct x as [| [|] | |]; cbn; tauto. Qed.

Lemma square_infinity (s : bool) :
  SF64mul (S754_infinity s) (S754_infinity s) = S754_infinity false.
Proof. now destruct s. Qed.

(** An infinite sum over a divisor that is not negative, and the
    quotient times the sum. *)
Lemma mean_times_sum (s d : spec_float) :
  infinite_or_nan s -> signed_or_nan false d ->
  infinite_or_nan (SF64div s d)
  /\ plus_infinity_or_nan (SF64mul (SF64div s d) s).
Proof.
  destruct s as [| [|] | |], d as [ [|] | [|] | | [|] ? ?]; cbn;
    intros Hs Hd; try tauto; try discriminate.
Qed.

Lemma sub_plus_infinities (x y : spec_float) :
  plus_infinity_or_nan x -> plus_infinity_or_nan y ->
  SF64sub x y = S754_nan.
Proof. destruct x as [| [|] | |], y as [| [|] | |]; cbn; tauto. Qed.

(** A square root is a zero, or NaN, or positive. *)
Lemma sqrt_sign (x : spec_float) :
  (exists s, SF64sqrt x = S754_zero s) \/ signed_or_nan false (SF64sqrt x).
Proof.
  destruct x as [s| [|] | | [|] mx ex]; cbn.
  - left. now exists s.
  - now right.
  - now right.
  - now right.
  - now right.
  - right. unfold SF64sqrt, SFsqrt.
    destruct (SFsqrt_core_binary prec emax (Z.pos mx) ex) as [[mz ez] lz].
    apply round_sign.
Qed.

Lemma nan_of_spec (x : float) : Prim2SF x = S754_nan -> x = nan.
Proof. intros Hx. apply Prim2SF_inj. rewrite Hx. reflexivity. Qed.

Lemma infinite_of_spec (x : float) :
  infinite_or_nan (Prim2SF x) -> x = infinity \/ x = neg_infinity \/ x = nan.
Proof.
  destruct (Prim2SF x) as [| [|] | |] eqn:Hx; cbn; intros H; try contradiction.
  - right. left. apply Prim2SF_inj. now rewrite Hx.
  - left. apply Prim2SF_inj. now rewrite Hx.
  - right. right. now apply nan_of_spec.
Qed.

Lemma sqrt_not_negative (x : float) :
  PrimFloat.sqrt x = nan \/ (0 <=? PrimFloat.sqrt x)%float = true.
Proof.
  rewrite leb_spec. change (Prim2SF 0) with (S754_zero false).
  pose proof (sqrt_sign (Prim2SF x)) as Hsign.
  rewrite <- sqrt_spec in Hsign.
  destruct (Prim2SF (PrimFloat.sqrt x)) as [s|s| |s mx ex] eqn:Hr.
  - now right.
  - destruct Hsign as [(z & Hz)|Hs]; [discriminate|].
    cbn in Hs. subst s. now right.
  - left. now apply nan_of_spec.
  - destruct Hsign as [(z & Hz)|Hs]; [discriminate|].
    cbn in Hs. subst s. now right.
Qed.

Lemma xsqrt_not_negative (x : xreal) :
  xsqrt x = XNaN \/ xle (XFin 0) (xsqrt x) = true.
Proof.
  destruct x as [a| | |]; cbn [xsqrt]; try (now left); try (now right).
  destruct (Rlt_dec a 0); [now left|]. right.
  apply XrealFacts.Rleb_true, sqrt_pos.
Qed.

(** The running sums of a list that holds an infinite value. *)
Lemma fold_runningSum_infinite (xs : list float) (acc : float) :
  infinite_or_nan (Prim2SF acc)
  \/ (exists x, In x xs /\ infinite_or_nan (Prim2SF x)) ->
  infinite_or_nan (Prim2SF (fold_left runningSum xs acc)).
Proof.
  revert acc. induction xs as [|y ys IH]; intros acc Hinf; cbn [fold_left].
  - destruct Hinf as [Hacc|(x & [] & _)]. exact Hacc.
  - apply IH. unfold runningSum at 1. cbn [d_add float_Double].
    rewrite add_spec. destruct Hinf as [Hacc|(x & [<-|Hx] & Hinf)].
    + left. now apply add_infinite_l.
    + left. now apply add_infinite_r.
    + right. now exists x.
Qed.

Lemma fold_runningSumsq_infinite (xs : list float) (acc : float) :
  plus_infinity_or_nan (Prim2SF acc)
  \/ (exists x, In x xs /\ (x = infinity \/ x = neg_infinity)) ->
  plus_infinity_or_nan (Prim2SF (fold_left runningSumsq xs acc)).
Proof.
  revert acc. induction xs as [|y ys IH]; intros acc Hinf; cbn [fold_left].
  - destruct Hinf as [Hacc|(x & [] & _)]. exact Hacc.
  - apply IH. unfold runningSumsq at 1. cbn [d_add d_mul float_Double].
    rewrite add_spec, mul_spec.
    destruct Hinf as [Hacc|(x & [<-|Hx] & Hinf)].
    + left. now apply add_plus_infinity_l.
    + left. destruct Hinf as [-> | ->].
      * change (Prim2SF infinity) with (S754_infinity false).
        rewrite square_infinity. apply add_plus_infinity_r.
      * change (Prim2SF neg_infinity) with (S754_infinity true).
        rewrite square_infinity. apply add_plus_infinity_r.
    + right. now exists x.
Qed.

(** A buffer of three pixels all equal to the binary64 value nearest to
    one tenth: the rounded sum over 3 is above the pixels, and the
    rounded [sumsq - mean * sum] is negative.  In binary64 the mean can
    leave the interval of the extremes and the standard deviation of
    equal pixels can be NaN. *)
Example equal_pixels_binary64 :
  let tenth := (1 / 10)%float in
  let r := snd (computeMean_ (zeroed [tenth; tenth; tenth]) 3
                             0%float 1%float) in
  numGoodPixels r = 3%Z
  /\ minValue r = tenth /\ maxValue r = tenth
  /\ (maxValue r <? mean r)%float = true
  /\ stddev r = nan.
Proof. vm_compute. repeat split. Qed.

End Binary64Special.

(** The routine never returns a negative standard deviation, whatever
    the memory, the length and the bounds: in binary64 the value left in
    [*stddev] is NaN or satisfies [0 <= stddev], and likewise in exact
    arithmetic. *)
Theorem stddev_never_negative :
  (forall (m : memory float) (nelements : Z) (clipmin clipmax : float),
      let out := snd (computeMean_ m nelements clipmin clipmax) in
      stddev out = nan \/ (0 <=? stddev out)%float = true)
  /\ (forall (m : memory xreal) (nelements : Z) (clipmin clipmax : xreal),
         let out := snd (computeMean_ m nelements clipmin clipmax) in
         stddev out = XNaN \/ (XFin 0 <=? stddev out)%D = true).
Proof.
  split; intros m nelements clipmin clipmax out; subst out;
    rewrite computeMean__stddev.
  - apply Binary64Special.sqrt_not_negative.
  - apply Binary64Special.xsqrt_not_negative.
Qed.

(** In binary64, from a zero count on entry: if an accepted pixel is
    [+infinity] or [-infinity] (which needs an infinite clip bound), the
    returned standard deviation is NaN and the returned mean is an
    infinity or NaN.  The sum is then infinite or NaN, the sum of squares
    [+infinity] or NaN, and so is [mean * sum], which makes
    [sumsq - mean * sum] NaN. *)
Theorem infinite_pixel_binary64
        (m : memory float) (nelements : Z) (clipmin clipmax x : float) :
  numGoodPixels m = 0%Z ->
  Int.is_int nelements ->
  In x (accepted m nelements clipmin clipmax) ->
  x = infinity \/ x = neg_infinity ->
  let out := snd (computeMean_ m nelements clipmin clipmax) in
  stddev out = nan
  /\ (mean out = infinity \/ mean out = neg_infinity \/ mean out = nan).
Proof.
  intros H0 Hn Hx Hinf out. subst out.
  rewrite computeMean__stddev, computeMean__mean.
  pose proof (loop_count_from_zero m clipmin clipmax H0 Hn) as Hcount.
  assert (Hsum : Binary64Values.infinite_or_nan
                   (Prim2SF (sum (snd (loop m nelements clipmin clipmax))))).
  { unfold loop, loop_init. rewrite fold_loop_body_components.
    cbn [snd sum]. fold (accepted m nelements clipmin clipmax).
    apply Binary64Special.fold_runningSum_infinite. right. exists x.
    split; [exact Hx|]. destruct Hinf as [-> | ->]; exact I. }
  assert (Hsumsq : Binary64Values.plus_infinity_or_nan
                     (Prim2SF (sumsq (snd (loop m nelements clipmin clipmax))))).
  { unfold loop, loop_init. rewrite fold_loop_body_components.
    cbn [snd sumsq]. fold (accepted m nelements clipmin clipmax).
    apply Binary64Special.fold_runningSumsq_infinite. right. now exists x. }
  assert (Hdiv : Binary64Values.signed_or_nan false
                   (Prim2SF (d_of_int (fst (loop m nelements clipmin clipmax))))).
  { cbn [d_of_int float_Double]. apply Binary64Special.float_of_int_sign.
    rewrite Hcount. lia. }
  destruct (Binary64Special.mean_times_sum _ _ Hsum Hdiv) as [Hmean Hprod].
  split.
  - apply Binary64Special.nan_of_spec.
    cbn [d_sqrt d_div float_Double]. rewrite sqrt_spec, div_spec.
    unfold stddev_numerator. cbn [d_sub d_mul d_div float_Double].
    rewrite sub_spec, mul_spec, div_spec.
    now rewrite (Binary64Special.sub_plus_infinities _ _ Hsumsq Hprod).
  - apply Binary64Special.infinite_of_spec.
    cbn [d_div float_Double]. now rewrite div_spec.
Qed.

(** The pixels 1, [+infinity], 2 without clipping. *)
Lemma infinite_pixel_binary64_witness :
  stddev (snd (computeMean_ (zeroed [1; infinity; 2]%float) 3
                            neg_infinity infinity))
  = nan.
Proof.
  refine (proj1 (@infinite_pixel_binary64
                   (zeroed [1; infinity; 2]%float) 3 neg_infinity infinity
                   infinity _ _ _ _)).
  - reflexivity.
  - unfold Int.is_int, Int.INT_MIN, Int.INT_MAX. lia.
  - vm_compute. right. left. reflexivity.
  - left. reflexivity.
Defined.
